(** * Verification of the Arabic PDF proofreading chunker

    A shallow embedding of [prepare_proofread_chunks.py]: the page
    extractor with its OCR fallback, the greedy chunk packer, the chunk
    writer's file naming and the page-source log.

    Python values are modelled as follows.
    - [str] is a list of Unicode code points ([pystr]); [len] is [length].
    - [int] is [Z] (unbounded).
    - Calls to the external collaborators (pypdf, pdf2image, pytesseract)
      are events appended to a trace; what a call answers may depend on the
      whole history, so collaborators may be stateful or flaky.
    - A Python exception is the [Raise] outcome of the error/state monad [M].
    - Console output ([print]) and failures of the file system are not
      modelled; a written file is an entry of a path-to-content map.
      Encoding a chunk's text to UTF-8 when it is written is modelled,
      with its failure on surrogate code points. *)

From Stdlib Require Import Ascii String.
From Stdlib Require Import ZArith NArith List Bool Lia.
From Stdlib Require Decimal DecimalZ.
Import ListNotations.

Open Scope Z_scope.

(* ================================================================== *)
(** ** Python strings *)

Module PyStr.

(** A Unicode code point. *)
Definition char := N.
Definition pystr := list char.

(** A string literal of the source (ASCII only in this program). *)
Definition lit (s : String.string) : pystr :=
  List.map N_of_ascii (String.list_ascii_of_string s).

(** [str.isspace] for one character, as CPython's
    [_PyUnicode_IsWhitespace] decides it. *)
Definition isspace (c : char) : bool :=
  (((9 <=? c) && (c <=? 13)) || ((28 <=? c) && (c <=? 32))
   || (c =? 133) || (c =? 160) || (c =? 5760)
   || ((8192 <=? c) && (c <=? 8202))
   || (c =? 8232) || (c =? 8233) || (c =? 8239) || (c =? 8287)
   || (c =? 12288))%N.

Fixpoint dropwhile (p : char -> bool) (s : pystr) : pystr :=
  match s with
  | [] => []
  | c :: s' => if p c then dropwhile p s' else s
  end.

Definition lstrip (s : pystr) : pystr := dropwhile isspace s.
Definition rstrip (s : pystr) : pystr := rev (dropwhile isspace (rev s)).

(** [s.strip()] with no argument. *)
Definition strip (s : pystr) : pystr := rstrip (lstrip s).

(** [s.split()] with no argument: the maximal runs of non-whitespace
    characters.  [cur] is the run being read, most recent character
    first. *)
Fixpoint split_from (cur : pystr) (s : pystr) : list pystr :=
  match s with
  | [] => match cur with [] => [] | _ => [rev cur] end
  | c :: s' =>
      if isspace c
      then match cur with
           | [] => split_from [] s'
           | _ => rev cur :: split_from [] s'
           end
      else split_from (c :: cur) s'
  end.

Definition split (s : pystr) : list pystr := split_from [] s.

(** [sep.join(parts)]. *)
Fixpoint join (sep : pystr) (parts : list pystr) : pystr :=
  match parts with
  | [] => []
  | [p] => p
  | p :: rest => p ++ sep ++ join sep rest
  end.

(** The decimal digits of a magnitude, most significant first. *)
Fixpoint digits (d : Decimal.uint) : pystr :=
  match d with
  | Decimal.Nil => []
  | Decimal.D0 d => 48%N :: digits d
  | Decimal.D1 d => 49%N :: digits d
  | Decimal.D2 d => 50%N :: digits d
  | Decimal.D3 d => 51%N :: digits d
  | Decimal.D4 d => 52%N :: digits d
  | Decimal.D5 d => 53%N :: digits d
  | Decimal.D6 d => 54%N :: digits d
  | Decimal.D7 d => 55%N :: digits d
  | Decimal.D8 d => 56%N :: digits d
  | Decimal.D9 d => 57%N :: digits d
  end.

(** Sign and digits of an integer, as [str(n)] prints them. *)
Definition sign_of (z : Z) : pystr :=
  match Z.to_int z with
  | Decimal.Pos _ => []
  | Decimal.Neg _ => [45%N]
  end.

Definition magnitude_of (z : Z) : pystr :=
  match Z.to_int z with
  | Decimal.Pos d => digits d
  | Decimal.Neg d => digits d
  end.

(** [f"{z}"] / [str(z)]. *)
Definition str_of_int (z : Z) : pystr := sign_of z ++ magnitude_of z.

(** [f"{z:0Wd}"] when [zero] is set (sign first, then zeros up to the
    width) and [f"{z:Wd}"] otherwise (spaces up to the width, then the
    sign). *)
Definition format_d (zero : bool) (width : nat) (z : Z) : pystr :=
  let body := (length (sign_of z) + length (magnitude_of z))%nat in
  let fill := (width - body)%nat in
  if zero
  then sign_of z ++ repeat 48%N fill ++ magnitude_of z
  else repeat 32%N fill ++ sign_of z ++ magnitude_of z.

(** Readers used to state that a printed number can be read back. *)
Fixpoint undigits (s : pystr) : Decimal.uint :=
  match s with
  | [] => Decimal.Nil
  | c :: s' =>
      let d := undigits s' in
      if (c =? 48)%N then Decimal.D0 d else
      if (c =? 49)%N then Decimal.D1 d else
      if (c =? 50)%N then Decimal.D2 d else
      if (c =? 51)%N then Decimal.D3 d else
      if (c =? 52)%N then Decimal.D4 d else
      if (c =? 53)%N then Decimal.D5 d else
      if (c =? 54)%N then Decimal.D6 d else
      if (c =? 55)%N then Decimal.D7 d else
      if (c =? 56)%N then Decimal.D8 d else
      if (c =? 57)%N then Decimal.D9 d else Decimal.Nil
  end.

Definition read_int (s : pystr) : Z :=
  match dropwhile (N.eqb 32) s with
  | [] => 0
  | c :: r =>
      if (c =? 45)%N
      then Z.of_int (Decimal.Neg (undigits r))
      else Z.of_int (Decimal.Pos (undigits (c :: r)))
  end.

(** The text of a file cut at its newline terminators. *)
Fixpoint lines_from (cur : pystr) (s : pystr) : list pystr :=
  match s with
  | [] => match cur with [] => [] | _ => [rev cur] end
  | c :: s' =>
      if (c =? 10)%N then rev cur :: lines_from [] s'
      else lines_from (c :: cur) s'
  end.

Definition lines (s : pystr) : list pystr := lines_from [] s.

End PyStr.
Import PyStr.

(* ================================================================== *)
(** ** Data model *)

(** The provenance tags the extractor writes into [source_type]. *)
Inductive Source : Type := TEXT | OCR | ERROR.

Definition source_name (s : Source) : pystr :=
  match s with
  | TEXT => lit "TEXT"
  | OCR => lit "OCR"
  | ERROR => lit "ERROR"
  end.

(** [class PageContent]. *)
Record PageContent : Type := mkPageContent {
  page_num : Z;
  text : pystr;
  source_type : Source
}.

(** [PageContent.word_count]. *)
Definition word_count (p : PageContent) : Z :=
  Z.of_nat (length (split (text p))).

(** The fields of [PDFChunker] that the modelled methods read. *)
Record PDFChunker : Type := mkPDFChunker {
  pdf_path : pystr;
  max_words : Z;
  max_pages : Z;
  ocr_lang : pystr
}.

Definition chunks_dir : pystr := lit "output/chunks".
Definition logs_dir : pystr := lit "logs".

(** [Path / name]. *)
Definition path_join (dir name : pystr) : pystr := dir ++ lit "/" ++ name.

(* ================================================================== *)
(** ** The chunk packer *)

Module Packer.

(** The three loop variables of [create_chunks]. *)
Record state : Type := mkState {
  chunks : list (list PageContent);
  current_chunk : list PageContent;
  current_word_count : Z
}.

Definition init : state := mkState [] [] 0.

Definition nonempty {A} (l : list A) : bool :=
  match l with [] => false | _ => true end.

(** One iteration of the [for page_content in pages_content] loop. *)
Definition step (self : PDFChunker) (st : state) (page_content : PageContent)
  : state :=
  let page_words := word_count page_content in
  let st1 :=
    if nonempty (current_chunk st) then
      let would_exceed_words :=
        (current_word_count st + page_words) >? max_words self in
      let would_exceed_pages :=
        Z.of_nat (length (current_chunk st)) >=? max_pages self in
      if would_exceed_words || would_exceed_pages
      then mkState (chunks st ++ [current_chunk st]) [] 0
      else st
    else st in
  mkState (chunks st1)
          (current_chunk st1 ++ [page_content])
          (current_word_count st1 + page_words).

Definition finish (st : state) : list (list PageContent) :=
  if nonempty (current_chunk st)
  then chunks st ++ [current_chunk st]
  else chunks st.

Definition create_chunks (self : PDFChunker)
           (pages_content : list PageContent) : list (list PageContent) :=
  finish (fold_left (step self) pages_content init).

(** Total number of words of a chunk. *)
Definition total_words (c : list PageContent) : Z :=
  fold_right (fun p acc => word_count p + acc) 0 c.

End Packer.

(* ================================================================== *)
(** ** Exceptions, collaborators and effects *)

(** The outcome of a Python call: a value, or an exception caught by
    [except Exception]. *)
Inductive result (A : Type) : Type :=
| Ok (a : A)
| Raise.
Arguments Ok {A} a.
Arguments Raise {A}.

Section Extractor.

(** A page object of the PDF reader and a rasterised image are opaque
    values handed from one collaborator to the next. *)
Variables Page Image : Type.

(** One call to a collaborator. *)
Inductive Event : Type :=
| PagesGetitem (index : Z)
| ExtractText (page : Page)
| ConvertFromPath (path : pystr) (first_page last_page dpi : Z)
| ImageToString (image : Image) (lang : pystr).

(** The calls made so far, most recent first. *)
Definition Trace : Type := list Event.

(** What each collaborator answers, given the calls made before. *)
Record Collaborators : Type := mkCollaborators {
  pages_getitem : Trace -> Z -> result Page;
  page_extract_text : Trace -> Page -> result (option pystr);
  convert_from_path : Trace -> pystr -> Z -> Z -> Z -> result (list Image);
  image_to_string : Trace -> Image -> pystr -> result pystr
}.

(** Computations that call collaborators and may raise. *)
Definition M (A : Type) : Type := Trace -> result A * Trace.

Definition ret {A} (a : A) : M A := fun tr => (Ok a, tr).

Definition bind {A B} (m : M A) (k : A -> M B) : M B :=
  fun tr =>
    match m tr with
    | (Ok a, tr') => k a tr'
    | (Raise, tr') => (Raise, tr')
    end.

Definition raise {A} : M A := fun tr => (Raise, tr).

(** [try: body  except Exception: handler]. *)
Definition try_except {A} (body handler : M A) : M A :=
  fun tr =>
    match body tr with
    | (Ok a, tr') => (Ok a, tr')
    | (Raise, tr') => handler tr'
    end.

(** A collaborator call: answered from the history, then recorded. *)
Definition call {A} (ev : Event) (answer : Trace -> result A) : M A :=
  fun tr => (answer tr, ev :: tr).

Notation "x <- m ;; k" := (bind m (fun x => k))
  (at level 61, m at next level, right associativity).

Variable env : Collaborators.
Variable self : PDFChunker.

(** [PDFChunker._ocr_page]. *)
Definition _ocr_page (page_num : Z) : M pystr :=
  try_except
    (images <- call (ConvertFromPath (pdf_path self)
                                     (page_num + 1) (page_num + 1) 300)
                    (fun tr => convert_from_path env tr (pdf_path self)
                                 (page_num + 1) (page_num + 1) 300) ;;
     match images with
     | [] => ret []
     | image :: _ =>
         ocr_text <- call (ImageToString image (ocr_lang self))
                          (fun tr => image_to_string env tr image
                                       (ocr_lang self)) ;;
         ret (strip ocr_text)
     end)
    raise.

(** [page.extract_text() or ""]. *)
Definition or_empty (t : option pystr) : pystr :=
  match t with
  | Some s => s
  | None => []
  end.

(** [PDFChunker.extract_text_from_page]. *)
Definition extract_text_from_page (page_num : Z) : M PageContent :=
  let display_page_num := page_num + 1 in
  try_except
    (page <- call (PagesGetitem page_num)
                  (fun tr => pages_getitem env tr page_num) ;;
     t <- call (ExtractText page)
               (fun tr => page_extract_text env tr page) ;;
     let extracted_text := or_empty t in
     if (40 <=? length (strip extracted_text))%nat
     then ret (mkPageContent display_page_num (strip extracted_text) TEXT)
     else
       ocr_text <- _ocr_page page_num ;;
       ret (mkPageContent display_page_num ocr_text OCR))
    (try_except
       (ocr_text <- _ocr_page page_num ;;
        ret (mkPageContent display_page_num ocr_text OCR))
       (ret (mkPageContent display_page_num [] ERROR))).

(** The page loop of [process_pdf], without the statistics counters;
    [page_nums] stands for [range(total_pages)], and each record is
    appended in page order. *)
Fixpoint extract_pages (page_nums : list Z) : M (list PageContent) :=
  match page_nums with
  | [] => ret []
  | page_num :: rest =>
      page_content <- extract_text_from_page page_num ;;
      pages_content <- extract_pages rest ;;
      ret (page_content :: pages_content)
  end.

(** The direct-extraction prefix of [extract_text_from_page], named so
    that properties can speak of its outcome. *)
Definition direct_extraction (page_num : Z) : M pystr :=
  page <- call (PagesGetitem page_num)
               (fun tr => pages_getitem env tr page_num) ;;
  t <- call (ExtractText page)
            (fun tr => page_extract_text env tr page) ;;
  ret (or_empty t).

(** Number of runs of the OCR fallback recorded in a trace: every run of
    [_ocr_page] starts with exactly one rasteriser call. *)
Definition is_rasterise (page_num : Z) (ev : Event) : bool :=
  match ev with
  | ConvertFromPath _ first_page _ _ => first_page =? page_num + 1
  | _ => false
  end.

Definition is_recognise (ev : Event) : bool :=
  match ev with
  | ImageToString _ _ => true
  | _ => false
  end.

Definition fallback_runs (page_num : Z) (tr : Trace) : nat :=
  length (filter (is_rasterise page_num) tr).

Definition recogniser_calls (tr : Trace) : nat :=
  length (filter is_recognise tr).

End Extractor.

Arguments Ok {A} a.
Arguments PagesGetitem {Page Image} index.
Arguments ExtractText {Page Image} page.
Arguments ConvertFromPath {Page Image} path first_page last_page dpi.
Arguments ImageToString {Page Image} image lang.
Arguments mkCollaborators {Page Image}.
Arguments pages_getitem {Page Image}.
Arguments page_extract_text {Page Image}.
Arguments convert_from_path {Page Image}.
Arguments image_to_string {Page Image}.
Arguments _ocr_page {Page Image}.
Arguments extract_text_from_page {Page Image}.
Arguments direct_extraction {Page Image}.
Arguments extract_pages {Page Image}.
Arguments fallback_runs {Page Image}.
Arguments recogniser_calls {Page Image}.

(* ================================================================== *)
(** ** The chunk writer and the log writer *)

Module Writer.

(** The files of the working directory: path to content. *)
Definition FS : Type := pystr -> option pystr.

Definition pystr_eqb (a b : pystr) : bool :=
  if list_eq_dec N.eq_dec a b then true else false.

(** [open(path, 'w')], the writes, and the close. *)
Definition write_file (fs : FS) (path content : pystr) : FS :=
  fun p => if pystr_eqb p path then Some content else fs p.

Definition nl : pystr := [10%N].

(** A character the UTF-8 codec encodes: any code point up to 0x10FFFF
    that is not a surrogate (0xD800 to 0xDFFF). *)
Definition encodable_char (c : char) : bool :=
  ((c <? 55296) || ((57343 <? c) && (c <=? 1114111)))%N.

(** Whether [text.encode('utf-8')] succeeds. *)
Definition utf8_encodable (s : pystr) : bool := forallb encodable_char s.

(** The name [write_chunk_file] gives to a chunk's file. *)
Definition chunk_filename (chunk_index start_page end_page : Z) : pystr :=
  lit "chunk_" ++ format_d true 3 (chunk_index + 1)
    ++ lit "_p" ++ format_d true 3 start_page
    ++ lit "-p" ++ format_d true 3 end_page ++ lit ".md".

Definition page_section (page : PageContent) : pystr :=
  lit "---- [Page " ++ str_of_int (page_num page) ++ lit "] ----" ++ nl
    ++ text page ++ nl.

Definition instructions : list pystr :=
  [ lit "### INSTRUCTIONS_FOR_CHATGPT";
    lit "Proofread the following Arabic text:";
    lit "- Correct spelling, grammar, punctuation, hamza, and spacing.";
    lit "- Preserve the exact meaning and tone.";
    lit "- Preserve headings, bullet points, numbering, and formatting as much as possible.";
    lit "- Do NOT summarize, shorten, or remove content.";
    lit "- Do NOT add explanations inside the text.";
    lit "- Return:";
    lit "  1. The fully corrected text only.";
    lit "  2. A short bullet list of recurring issues you fixed (in Arabic)." ].

Definition chunk_content (chunk_index start_page end_page : Z)
           (combined_text : pystr) : pystr :=
  join nl
    ([ lit "### CHUNK_META";
       lit "CHUNK_ID: " ++ format_d true 3 (chunk_index + 1);
       lit "PAGES: " ++ str_of_int start_page ++ lit "-"
         ++ str_of_int end_page;
       [] ]
     ++ instructions
     ++ [ []; lit "### TEXT"; combined_text ]).

(** [PDFChunker.write_chunk_file]: how the call ends and the files it
    leaves.  Indexing an empty chunk raises before any file is opened.
    [open(filepath, 'w', encoding='utf-8')] creates or empties the file;
    [f.write(content)] then raises when the content cannot be encoded,
    and the file stays empty. *)
Definition write_chunk_file (chunk_index : Z) (chunk_pages : list PageContent)
           (fs : FS) : result unit * FS :=
  match chunk_pages with
  | [] => (Raise, fs)
  | first :: _ =>
      let start_page := page_num first in
      let end_page := page_num (last chunk_pages first) in
      let filename := chunk_filename chunk_index start_page end_page in
      let filepath := path_join chunks_dir filename in
      let text_sections := List.map page_section chunk_pages in
      let combined_text := join nl text_sections in
      let content :=
        chunk_content chunk_index start_page end_page combined_text in
      if utf8_encodable content
      then (Ok tt, write_file fs filepath content)
      else (Raise, write_file fs filepath [])
  end.

(** One row of the page-source log, without its newline. *)
Definition log_row (page : PageContent) : pystr :=
  format_d false 6 (page_num page) ++ lit "      | "
    ++ source_name (source_type page).

Definition log_header : list pystr :=
  [ lit "Page Number | Source Type"; repeat 45%N 30 ].

(** The text written to the log: each [f.write] appends. *)
Definition log_text (pages_content : list PageContent) : pystr :=
  let f0 : pystr := [] in
  let f1 := f0 ++ (lit "Page Number | Source Type" ++ nl) in
  let f2 := f1 ++ (repeat 45%N 30 ++ nl) in
  fold_left (fun f page => f ++ (log_row page ++ nl)) pages_content f2.

(** [PDFChunker.write_log]. *)
Definition write_log (pages_content : list PageContent) (fs : FS) : FS :=
  let log_file := path_join logs_dir (lit "page_sources.txt") in
  write_file fs log_file (log_text pages_content).

End Writer.

(* ================================================================== *)
(** ** Specification predicates *)

Module PackerSpec.
Import Packer.

(** The word ceiling is soft: it may be exceeded by a one-page chunk
    only. *)
Definition within_words (self : PDFChunker) (c : list PageContent) : Prop :=
  total_words c > max_words self -> length c = 1%nat.

Definition within_pages (self : PDFChunker) (c : list PageContent) : Prop :=
  Z.of_nat (length c) <= max_pages self.

(** What holds of the loop variables after every iteration. *)
Record invariant (self : PDFChunker) (st : state) : Prop := mkInvariant {
  inv_closed_nonempty : Forall (fun c => c <> []) (chunks st);
  inv_closed_words : Forall (within_words self) (chunks st);
  inv_count : current_word_count st = total_words (current_chunk st);
  inv_open_words :
    current_chunk st <> [] -> within_words self (current_chunk st)
}.

Record page_invariant (self : PDFChunker) (st : state) : Prop :=
  mkPageInvariant {
    inv_closed_pages : Forall (within_pages self) (chunks st);
    inv_open_pages : within_pages self (current_chunk st)
  }.

End PackerSpec.

Module ExtractorSpec.

(** Direct extraction did not yield usable text: it raised, or the
    stripped text is shorter than 40 characters. *)
Definition fallback_needed {Page Image : Type}
           (env : Collaborators Page Image) (page_num : Z)
           (tr : Trace Page Image) : Prop :=
  match direct_extraction env page_num tr with
  | (Raise, _) => True
  | (Ok extracted_text, _) => (length (strip extracted_text) < 40)%nat
  end.

Definition all_space (s : pystr) : Prop :=
  Forall (fun c => isspace c = true) s.

End ExtractorSpec.

Module FormatSpec.

Definition digit_char (c : char) : bool := ((48 <=? c) && (c <=? 57))%N.

(** The characters an integer is printed with: space, minus, digits. *)
Definition numeric_char (c : char) : bool :=
  ((c =? 32) || (c =? 45))%N || digit_char c.

(** Empty, or starting with a digit. *)
Definition digit_headed (s : pystr) : Prop :=
  match s with
  | [] => True
  | c :: _ => digit_char c = true
  end.

(** Whether a text contains a given character. *)
Definition mentions (x : char) (s : pystr) : bool := existsb (N.eqb x) s.

(** [k] leading zeros in front of a magnitude. *)
Fixpoint with_zeros (k : nat) (d : Decimal.uint) : Decimal.uint :=
  match k with
  | O => d
  | S k' => Decimal.D0 (with_zeros k' d)
  end.

End FormatSpec.

(** Concrete inputs used to exercise the model. *)
Module Fixtures.

(** A page of [n] one-letter words. *)
Definition page_of_words (num : Z) (n : nat) : PageContent :=
  mkPageContent num (concat (repeat (lit "w ") n)) TEXT.

Definition limits (words pages : Z) : PDFChunker :=
  mkPDFChunker (lit "input/document.pdf") words pages (lit "ara+eng").

Definition chunker : PDFChunker := limits 3500 10.

Definition sentence : pystr :=
  lit "  The quick brown fox jumps over the lazy dog, twice.  ".

(** A page with an embedded text layer. *)
Definition text_page : Collaborators unit unit :=
  mkCollaborators
    (fun _ _ => Ok tt)
    (fun _ _ => Ok (Some sentence))
    (fun _ _ _ _ _ => Ok [tt])
    (fun _ _ _ => Ok (lit " scanned ")).

(** A scanned page: no text layer, recognition works. *)
Definition scanned_page : Collaborators unit unit :=
  mkCollaborators
    (fun _ _ => Ok tt)
    (fun _ _ => Ok (Some []))
    (fun _ _ _ _ _ => Ok [tt])
    (fun _ _ _ => Ok (lit " scanned ")).

(** A scanned page for which the rasteriser returns no image. *)
Definition blank_page : Collaborators unit unit :=
  mkCollaborators
    (fun _ _ => Ok tt)
    (fun _ _ => Ok (Some []))
    (fun _ _ _ _ _ => Ok [])
    (fun _ _ _ => Raise).

(** A scanned page on which the recogniser always fails. *)
Definition unreadable_page : Collaborators unit unit :=
  mkCollaborators
    (fun _ _ => Ok tt)
    (fun _ _ => Ok (Some []))
    (fun _ _ _ _ _ => Ok [tt])
    (fun _ _ _ => Raise).



(** A page whose text extraction raises and whose recogniser always
    fails. *)
Definition broken_page : Collaborators unit unit :=
  mkCollaborators
    (fun _ _ => Ok tt)
    (fun _ _ => Raise)
    (fun _ _ _ _ _ => Ok [tt])
    (fun _ _ _ => Raise).

End Fixtures.

(* ================================================================== *)
(** ** The orchestrator *)

(** [self.stats]. *)
Record Stats : Type := mkStats {
  total_pages : Z;
  text_pages : Z;
  ocr_pages : Z;
  total_chunks : Z
}.

(** The counters as [PDFChunker.__init__] sets them. *)
Definition initial_stats : Stats := mkStats 0 0 0 0.

(** What the file system and the PDF parser answer about [pdf_path]:
    [exists()], [is_file()], the [open] and [PdfReader] of [validate_pdf],
    and the [open], [PdfReader] and [len(pdf_reader.pages)] of
    [process_pdf]. *)
Record Document : Type := mkDocument {
  path_exists : bool;
  path_is_file : bool;
  validate_open : result unit;
  process_open : result nat
}.

(** [PDFChunker.validate_pdf]. *)
Definition validate_pdf (doc : Document) : bool :=
  if negb (path_exists doc) then false
  else if negb (path_is_file doc) then false
  else match validate_open doc with
       | Ok _ => true
       | Raise => false
       end.

(** The statistics update of the page loop of [process_pdf]. *)
Definition count_page (stats : Stats) (page_content : PageContent) : Stats :=
  match source_type page_content with
  | TEXT => mkStats (total_pages stats) (text_pages stats + 1)
                    (ocr_pages stats) (total_chunks stats)
  | OCR => mkStats (total_pages stats) (text_pages stats)
                   (ocr_pages stats + 1) (total_chunks stats)
  | ERROR => stats
  end.

(** The [for chunk_index, chunk_pages in enumerate(chunks)] loop of
    [run], from the index [chunk_index] on. *)
Fixpoint write_chunks (chunk_index : Z) (chunks : list (list PageContent))
         (fs : Writer.FS) : result unit * Writer.FS :=
  match chunks with
  | [] => (Ok tt, fs)
  | chunk_pages :: rest =>
      match Writer.write_chunk_file chunk_index chunk_pages fs with
      | (Ok _, fs') => write_chunks (chunk_index + 1) rest fs'
      | (Raise, fs') => (Raise, fs')
      end
  end.

Section Orchestrator.

Context {Page Image : Type}.
Variable env : Collaborators Page Image.
Variable self : PDFChunker.

Notation "x <- m ;; k" := (bind Page Image m (fun x => k))
  (at level 61, m at next level, right associativity).

(** The page loop of [process_pdf]: [pages_content] and [stats] are the
    list and the counters built so far. *)
Fixpoint process_pages (page_nums : list Z) (pages_content : list PageContent)
         (stats : Stats) : M Page Image (list PageContent * Stats) :=
  match page_nums with
  | [] => ret Page Image (pages_content, stats)
  | page_num :: rest =>
      page_content <- extract_text_from_page env self page_num ;;
      process_pages rest (pages_content ++ [page_content])
                    (count_page stats page_content)
  end.

(** [PDFChunker.process_pdf]. *)
Definition process_pdf (doc : Document) (stats : Stats)
  : M Page Image (list PageContent * Stats) :=
  match process_open doc with
  | Raise => raise Page Image
  | Ok n =>
      let stats := mkStats (Z.of_nat n) (text_pages stats)
                           (ocr_pages stats) (total_chunks stats) in
      process_pages (List.map Z.of_nat (seq 0 n)) [] stats
  end.

(** [PDFChunker.run]: the success flag, the counters and the files it
    leaves when it returns; an exception of [write_chunk_file] is not
    caught and ends the run. *)
Definition run (doc : Document) (stats : Stats) (fs : Writer.FS)
  : M Page Image (bool * Stats * Writer.FS) :=
  if negb (validate_pdf doc) then ret Page Image (false, stats, fs)
  else
    processed <- try_except Page Image
                   (r <- process_pdf doc stats ;; ret Page Image (Some r))
                   (ret Page Image None) ;;
    match processed with
    | None => ret Page Image (false, stats, fs)
    | Some (pages_content, stats) =>
        let chunks := Packer.create_chunks self pages_content in
        let stats := mkStats (total_pages stats) (text_pages stats)
                             (ocr_pages stats)
                             (Z.of_nat (length chunks)) in
        match write_chunks 0 chunks fs with
        | (Raise, _) => raise Page Image
        | (Ok _, fs) => ret Page Image
                          (true, stats, Writer.write_log pages_content fs)
        end
    end.

End Orchestrator.

(* ================================================================== *)
(** ** Further specification predicates *)

Module OrchestratorSpec.

(** The packer as a recursion over the pages still to place, with the
    open chunk and its running word count. *)
Fixpoint pack (self : PDFChunker) (current_chunk : list PageContent)
         (current_word_count : Z) (pages : list PageContent)
  : list (list PageContent) :=
  match pages with
  | [] => if Packer.nonempty current_chunk then [current_chunk] else []
  | page_content :: rest =>
      let page_words := word_count page_content in
      if Packer.nonempty current_chunk
         && ((current_word_count + page_words >? max_words self)
             || (Z.of_nat (length current_chunk) >=? max_pages self))
      then current_chunk :: pack self [page_content] (0 + page_words) rest
      else pack self (current_chunk ++ [page_content])
                (current_word_count + page_words) rest
  end.

(** The page [p] could not join the chunk [c]. *)
Definition would_exceed (self : PDFChunker) (c : list PageContent)
           (p : PageContent) : Prop :=
  Packer.total_words c + word_count p > max_words self
  \/ Z.of_nat (length c) >= max_pages self.

(** Every boundary between two chunks is one the limits force. *)
Fixpoint boundaries_forced (self : PDFChunker)
         (chunks : list (list PageContent)) : Prop :=
  match chunks with
  | c1 :: ((c2 :: _) as rest) =>
      match c2 with
      | [] => False
      | p :: _ => would_exceed self c1 p
      end /\ boundaries_forced self rest
  | _ => True
  end.

(** Page records numbered consecutively from [k]. *)
Definition numbered_from (k : Z) (pages : list PageContent) : Prop :=
  List.map page_num pages
  = List.map (fun i => k + Z.of_nat i) (seq 0 (length pages)).

Definition count_source (s : Source) (pages : list PageContent) : Z :=
  Z.of_nat (length (filter (fun p =>
                              match source_type p, s with
                              | TEXT, TEXT | OCR, OCR | ERROR, ERROR => true
                              | _, _ => false
                              end) pages)).

(** A call to the PDF parser. *)
Definition is_parser_call {Page Image : Type} (ev : Event Page Image) : bool :=
  match ev with
  | PagesGetitem _ => true
  | ExtractText _ => true
  | _ => false
  end.

(** The path [write_chunk_file] writes the chunk [chunk_pages] to. *)
Definition chunk_path (chunk_index : Z) (chunk_pages : list PageContent)
  : pystr :=
  match chunk_pages with
  | [] => []
  | first :: _ =>
      path_join chunks_dir
        (Writer.chunk_filename chunk_index (page_num first)
           (page_num (last chunk_pages first)))
  end.

(** The text [write_chunk_file] writes for the chunk [chunk_pages]. *)
Definition chunk_text (chunk_index : Z) (chunk_pages : list PageContent)
  : pystr :=
  match chunk_pages with
  | [] => []
  | first :: _ =>
      Writer.chunk_content chunk_index (page_num first)
        (page_num (last chunk_pages first))
        (join Writer.nl (List.map Writer.page_section chunk_pages))
  end.

Definition log_path : pystr := path_join logs_dir (lit "page_sources.txt").

(** Every page text can be encoded to UTF-8. *)
Definition texts_encodable (pages : list PageContent) : bool :=
  forallb (fun p => Writer.utf8_encodable (text p)) pages.

(** Strict lexicographic order on texts, as a file listing sorts names. *)
Fixpoint lex_ltb (a b : pystr) : bool :=
  match a, b with
  | [], [] => false
  | [], _ :: _ => true
  | _ :: _, [] => false
  | x :: a', y :: b' =>
      if (x <? y)%N then true
      else if (x =? y)%N then lex_ltb a' b' else false
  end.

End OrchestratorSpec.

(** Concrete documents and files used to exercise the orchestrator. *)
Module OrchestratorFixtures.

Definition good_document : Document := mkDocument true true (Ok tt) (Ok 2%nat).

Definition missing_document : Document := mkDocument false false Raise Raise.

Definition empty_fs : Writer.FS := fun _ => None.

(** The chunk ordinals that fit the three-digit padding and have a
    successor that does. *)
Definition ordinals : list Z := List.map Z.of_nat (seq 1 998).

(** Whether two padded ordinals both have three characters and compare
    as texts the way they compare as numbers. *)
Definition ordered_pair (m n : Z) : bool :=
  if m <? n
  then (length (format_d true 3 m) =? 3)%nat
       && (length (format_d true 3 n) =? 3)%nat
       && OrchestratorSpec.lex_ltb (format_d true 3 m) (format_d true 3 n)
  else true.

End OrchestratorFixtures.

(* ================================================================== *)
(** ** The packer: partition and size bounds *)

Module PackerFacts.
Import Packer PackerSpec.

Lemma word_count_nonneg p : 0 <= word_count p.
Proof. unfold word_count. lia. Qed.

Lemma total_words_app c d :
  total_words (c ++ d) = total_words c + total_words d.
Proof.
  induction c as [|p c IH]; simpl; [reflexivity|].
  unfold total_words in *. simpl. rewrite IH. lia.
Qed.

Lemma total_words_single p : total_words [p] = word_count p.
Proof. unfold total_words. simpl. lia. Qed.

Lemma total_words_nonneg c : 0 <= total_words c.
Proof.
  induction c as [|p c IH]; unfold total_words in *; simpl; [lia|].
  pose proof (word_count_nonneg p). lia.
Qed.

(** The three ways one iteration can go. *)
Lemma step_cases self st p :
  (current_chunk st = [] /\
   step self st p =
     mkState (chunks st) [p] (current_word_count st + word_count p))
  \/ (current_chunk st <> [] /\
      (current_word_count st + word_count p > max_words self
       \/ Z.of_nat (length (current_chunk st)) >= max_pages self) /\
      step self st p =
        mkState (chunks st ++ [current_chunk st]) [p] (0 + word_count p))
  \/ (current_chunk st <> [] /\
      current_word_count st + word_count p <= max_words self /\
      Z.of_nat (length (current_chunk st)) < max_pages self /\
      step self st p =
        mkState (chunks st) (current_chunk st ++ [p])
                (current_word_count st + word_count p)).
Proof.
  unfold step. destruct (current_chunk st) as [|q c] eqn:E.
  - left. simpl. rewrite E. auto.
  - right. cbn [nonempty].
    destruct (current_word_count st + word_count p >? max_words self) eqn:W;
    destruct (Z.of_nat (length (q :: c)) >=? max_pages self) eqn:P;
    cbn [orb current_chunk chunks current_word_count];
    try (left; split; [discriminate|]; split; [|reflexivity]).
    + left. apply Z.gtb_lt in W. lia.
    + left. apply Z.gtb_lt in W. lia.
    + right. apply Z.geb_le in P. lia.
    + right. rewrite E. split; [discriminate|].
      rewrite Z.gtb_ltb in W. apply Z.ltb_ge in W.
      rewrite Z.geb_leb in P. apply Z.leb_gt in P.
      repeat split; auto; lia.
Qed.

(** Pages are neither lost nor moved by an iteration. *)
Lemma step_flat self st p :
  concat (chunks (step self st p)) ++ current_chunk (step self st p)
  = (concat (chunks st) ++ current_chunk st) ++ [p].
Proof.
  destruct (step_cases self st p)
    as [[E ->]|[(_ & _ & ->)|(_ & _ & _ & ->)]]; simpl.
  - rewrite E, app_nil_r. reflexivity.
  - rewrite concat_app. simpl. rewrite app_nil_r. reflexivity.
  - rewrite app_assoc. reflexivity.
Qed.

Lemma fold_flat self pages : forall st,
  let st' := fold_left (step self) pages st in
  concat (chunks st') ++ current_chunk st'
  = (concat (chunks st) ++ current_chunk st) ++ pages.
Proof.
  induction pages as [|p pages IH]; intros st; simpl.
  - rewrite app_nil_r. reflexivity.
  - simpl in IH. rewrite IH, step_flat, <- app_assoc. reflexivity.
Qed.

Lemma finish_flat st :
  concat (finish st) = concat (chunks st) ++ current_chunk st.
Proof.
  unfold finish. destruct (current_chunk st); simpl.
  - rewrite app_nil_r. reflexivity.
  - rewrite concat_app. simpl. rewrite app_nil_r. reflexivity.
Qed.

Lemma create_chunks_concat self pages :
  concat (create_chunks self pages) = pages.
Proof.
  unfold create_chunks. rewrite finish_flat.
  pose proof (fold_flat self pages init) as H. simpl in H. exact H.
Qed.

Lemma step_invariant self st p :
  invariant self st -> invariant self (step self st p).
Proof.
  intros [Hne Hw Hc Ho].
  pose proof (word_count_nonneg p) as Hp.
  destruct (step_cases self st p)
    as [[E ->]|[(E & _ & ->)|(E & W & _ & ->)]];
    constructor; simpl; auto.
  - rewrite Hc, E. unfold total_words. simpl. lia.
  - intros _ _. reflexivity.
  - apply Forall_app. split; auto.
  - apply Forall_app. split; auto.
  - unfold total_words. simpl. lia.
  - intros _ _. reflexivity.
  - rewrite total_words_app, total_words_single. lia.
  - intros _ Hgt. rewrite total_words_app, total_words_single in Hgt. lia.
Qed.

Lemma fold_invariant self pages : forall st,
  invariant self st -> invariant self (fold_left (step self) pages st).
Proof.
  induction pages as [|p pages IH]; intros st H; simpl; auto.
  apply IH, step_invariant, H.
Qed.

Lemma init_invariant self : invariant self init.
Proof. constructor; simpl; auto. intros H. contradiction. Qed.

Lemma step_page_invariant self st p :
  1 <= max_pages self ->
  page_invariant self st -> page_invariant self (step self st p).
Proof.
  intros Hpos [Hc Ho]. unfold within_pages in *.
  destruct (step_cases self st p)
    as [[E ->]|[(E & _ & ->)|(E & _ & P & ->)]];
    constructor; simpl; auto; unfold within_pages; simpl; try lia.
  - apply Forall_app. split; auto.
  - rewrite length_app. simpl. lia.
Qed.

Lemma fold_page_invariant self pages : forall st,
  1 <= max_pages self ->
  page_invariant self st ->
  page_invariant self (fold_left (step self) pages st).
Proof.
  induction pages as [|p pages IH]; intros st Hpos H; simpl; auto.
  apply IH; auto. apply step_page_invariant; auto.
Qed.

Lemma init_page_invariant self :
  1 <= max_pages self -> page_invariant self init.
Proof. intros H. constructor; simpl; auto. unfold within_pages. simpl. lia. Qed.

Lemma in_finish st c :
  In c (finish st) ->
  In c (chunks st) \/ (c = current_chunk st /\ current_chunk st <> []).
Proof.
  unfold finish. destruct (current_chunk st) eqn:E; simpl; auto.
  intros H. apply in_app_or in H. destruct H as [H|[H|[]]]; auto.
  right. split; [auto | discriminate].
Qed.

End PackerFacts.

Section PackerClaims.
Import Packer PackerSpec PackerFacts Fixtures.

(** The worked examples of the packer. *)
Example pack_four_thousands :
  let p i := page_of_words i 1000 in
  create_chunks (limits 3500 10) [p 1; p 2; p 3; p 4]
  = [[p 1; p 2; p 3]; [p 4]].
Proof. vm_compute. reflexivity. Qed.

Example pack_oversized_page :
  create_chunks (limits 3500 10) [page_of_words 1 5000]
  = [[page_of_words 1 5000]].
Proof. vm_compute. reflexivity. Qed.

Example pack_twelve_pages :
  List.map (@length _)
    (create_chunks (limits 100000 10)
       (List.map (fun i => page_of_words (Z.of_nat i) 100) (seq 1 12)))
  = [10%nat; 2%nat].
Proof. vm_compute. reflexivity. Qed.

Example pack_nothing : create_chunks (limits 3500 10) [] = [].
Proof. reflexivity. Qed.

(** C1. Whatever the limits, the chunks returned by [create_chunks],
    concatenated in order, are exactly the input page list; no chunk is
    empty; and every chunk is a contiguous run of the input. *)
Theorem create_chunks_partition (self : PDFChunker)
        (pages_content : list PageContent) :
  concat (create_chunks self pages_content) = pages_content
  /\ Forall (fun c => c <> []) (create_chunks self pages_content)
  /\ forall before c after,
       create_chunks self pages_content = before ++ c :: after ->
       pages_content = concat before ++ c ++ concat after.
Proof.
  split; [apply create_chunks_concat|]. split.
  - apply Forall_forall. intros c Hin. unfold create_chunks in Hin.
    apply in_finish in Hin. destruct Hin as [Hin|[-> Hne]]; auto.
    pose proof (fold_invariant self pages_content init
                  (init_invariant self)) as [Hc _ _ _].
    rewrite Forall_forall in Hc. auto.
  - intros before c after E.
    rewrite <- (create_chunks_concat self pages_content) at 1.
    rewrite E, concat_app. reflexivity.
Qed.

(** C2. A chunk whose total word count exceeds [max_words] holds exactly
    one page; put the other way, a chunk of two or more pages totals at
    most [max_words] words. *)
Theorem create_chunks_word_ceiling (self : PDFChunker)
        (pages_content : list PageContent) (c : list PageContent) :
  In c (create_chunks self pages_content) ->
  (total_words c > max_words self -> length c = 1%nat)
  /\ ((2 <= length c)%nat -> total_words c <= max_words self).
Proof.
  intros Hin. unfold create_chunks in Hin. apply in_finish in Hin.
  pose proof (fold_invariant self pages_content init
                (init_invariant self)) as [_ Hw _ Ho].
  assert (H : within_words self c).
  { destruct Hin as [Hin|[-> Hne]].
    - rewrite Forall_forall in Hw. apply Hw, Hin.
    - apply Ho, Hne. }
  unfold within_words in H. split; [exact H|].
  intros Hlen. destruct (Z_gt_le_dec (total_words c) (max_words self)) as [G|L].
  - apply H in G. lia.
  - exact L.
Qed.

Lemma create_chunks_word_ceiling_witness :
  let big := page_of_words 2 5 in
  In [big] (create_chunks (limits 3 10) [page_of_words 1 2; big])
  /\ total_words [big] > max_words (limits 3 10)
  /\ length [big] = 1%nat.
Proof.
  intros big.
  assert (Hin : In [big] (create_chunks (limits 3 10)
                            [page_of_words 1 2; big]))
    by (vm_compute; right; left; reflexivity).
  assert (Hgt : total_words [big] > max_words (limits 3 10))
    by (vm_compute; reflexivity).
  split; [exact Hin|]. split; [exact Hgt|].
  exact (proj1 (create_chunks_word_ceiling (limits 3 10)
                  [page_of_words 1 2; big] [big] Hin) Hgt).
Defined.

(** C3. With a page ceiling of at least one, no chunk holds more than
    [max_pages] pages. *)
Theorem create_chunks_page_ceiling (self : PDFChunker)
        (pages_content : list PageContent) (c : list PageContent) :
  0 < max_words self ->
  0 < max_pages self ->
  In c (create_chunks self pages_content) ->
  Z.of_nat (length c) <= max_pages self.
Proof.
  intros _ Hpos Hin. unfold create_chunks in Hin. apply in_finish in Hin.
  assert (H1 : 1 <= max_pages self) by lia.
  pose proof (fold_page_invariant self pages_content init H1
                (init_page_invariant self H1)) as [Hc Ho].
  destruct Hin as [Hin|[-> _]].
  - rewrite Forall_forall in Hc. apply Hc, Hin.
  - apply Ho.
Qed.

Lemma create_chunks_page_ceiling_witness :
  let p i := page_of_words i 1 in
  0 < max_words (limits 100 2)
  /\ 0 < max_pages (limits 100 2)
  /\ In [p 1; p 2] (create_chunks (limits 100 2) [p 1; p 2; p 3])
  /\ Z.of_nat (length [p 1; p 2]) <= max_pages (limits 100 2).
Proof.
  intros p.
  assert (Hw : 0 < max_words (limits 100 2)) by (vm_compute; reflexivity).
  assert (Hp : 0 < max_pages (limits 100 2)) by (vm_compute; reflexivity).
  assert (Hin : In [p 1; p 2]
                   (create_chunks (limits 100 2) [p 1; p 2; p 3]))
    by (vm_compute; left; reflexivity).
  split; [exact Hw|]. split; [exact Hp|]. split; [exact Hin|].
  exact (create_chunks_page_ceiling (limits 100 2) [p 1; p 2; p 3]
           [p 1; p 2] Hw Hp Hin).
Defined.

End PackerClaims.

(* ================================================================== *)
(** ** Facts about [strip] *)

Module StripFacts.
Import ExtractorSpec.

Lemma dropwhile_idem p s : dropwhile p (dropwhile p s) = dropwhile p s.
Proof.
  induction s as [|c s IH]; simpl; auto.
  destruct (p c) eqn:E; auto. simpl. rewrite E. reflexivity.
Qed.

Lemma dropwhile_stop p a c b :
  p c = false -> dropwhile p (a ++ c :: b) = dropwhile p a ++ c :: b.
Proof.
  intros Hc. induction a as [|x a IH]; simpl.
  - rewrite Hc. reflexivity.
  - destruct (p x); auto.
Qed.

Lemma dropwhile_prefix p s :
  exists pre, s = pre ++ dropwhile p s /\ Forall (fun c => p c = true) pre.
Proof.
  induction s as [|c s (pre & E & H)]; simpl.
  - exists []. auto.
  - destruct (p c) eqn:Hc.
    + exists (c :: pre). split; [simpl; congruence | constructor; auto].
    + exists []. auto.
Qed.

Lemma dropwhile_head p s c r : dropwhile p s = c :: r -> p c = false.
Proof.
  induction s as [|x s IH]; simpl; [discriminate|].
  destruct (p x) eqn:E; auto. intros H. congruence.
Qed.

Lemma rstrip_idem s : rstrip (rstrip s) = rstrip s.
Proof. unfold rstrip. rewrite rev_involutive, dropwhile_idem. reflexivity. Qed.

Lemma rstrip_keeps_head c s :
  isspace c = false -> rstrip (c :: s) = c :: rstrip s.
Proof.
  intros Hc. unfold rstrip. simpl.
  replace (rev s ++ [c]) with (rev s ++ c :: []) by reflexivity.
  rewrite dropwhile_stop by exact Hc.
  rewrite rev_app_distr. reflexivity.
Qed.

(** Stripping twice is stripping once. *)
Lemma strip_idem s : strip (strip s) = strip s.
Proof.
  unfold strip, lstrip.
  destruct (dropwhile isspace s) as [|c r] eqn:E.
  - reflexivity.
  - pose proof (dropwhile_head _ _ _ _ E) as Hc.
    rewrite (rstrip_keeps_head c r Hc). simpl. rewrite Hc.
    rewrite <- (rstrip_keeps_head c r Hc). apply rstrip_idem.
Qed.

Lemma strip_nil : strip [] = [].
Proof. reflexivity. Qed.

(** [strip] removes a run of whitespace at each end and nothing else,
    and what is left neither starts nor ends with whitespace. *)
Lemma strip_spec s :
  exists pre post,
    s = pre ++ strip s ++ post
    /\ all_space pre /\ all_space post
    /\ (forall c r, strip s = c :: r -> isspace c = false)
    /\ (forall r c, strip s = r ++ [c] -> isspace c = false).
Proof.
  unfold strip, lstrip.
  destruct (dropwhile_prefix isspace s) as (pre & E1 & H1).
  remember (dropwhile isspace s) as l eqn:Hl.
  destruct (dropwhile_prefix isspace (rev l)) as (tsop & E2 & H2).
  exists pre, (rev tsop). unfold rstrip.
  assert (El : l = rev (dropwhile isspace (rev l)) ++ rev tsop).
  { rewrite <- rev_app_distr, <- E2, rev_involutive. reflexivity. }
  repeat split.
  - rewrite <- El. exact E1.
  - exact H1.
  - apply Forall_rev. exact H2.
  - intros c r Hs.
    destruct l as [|x l']; [discriminate|].
    pose proof (dropwhile_head isspace s x l' (eq_sym Hl)) as Hx.
    fold (rstrip (x :: l')) in Hs. rewrite rstrip_keeps_head in Hs by auto.
    congruence.
  - intros r c Hs.
    apply (f_equal (@rev _)) in Hs.
    rewrite rev_involutive, rev_app_distr in Hs. simpl in Hs.
    apply (dropwhile_head _ _ _ _ Hs).
Qed.

End StripFacts.

(* ================================================================== *)
(** ** The page extractor *)

Module ExtractorFacts.
Import ExtractorSpec StripFacts.

(** Case analysis on whatever the computation branches on next. *)
Ltac branch :=
  match goal with
  | |- context [match ?x with _ => _ end] =>
      lazymatch x with
      | context [match _ with _ => _ end] => fail
      | _ => destruct x eqn:?
      end
  end.

Ltac run :=
  unfold extract_text_from_page, direct_extraction, _ocr_page,
    try_except, bind, call, ret, raise.

Section WithCollaborators.
Context {Page Image : Type}.
Variable env : Collaborators Page Image.
Variable self : PDFChunker.

(** The outcomes of one run of the fallback. *)
Lemma ocr_page_cases page_num tr :
  let ev := ConvertFromPath (pdf_path self)
                            (page_num + 1) (page_num + 1) 300 in
  match convert_from_path env tr (pdf_path self)
                          (page_num + 1) (page_num + 1) 300 with
  | Raise => _ocr_page env self page_num tr = (Raise, ev :: tr)
  | Ok [] => _ocr_page env self page_num tr = (Ok [], ev :: tr)
  | Ok (image :: _) =>
      let ev' := ImageToString image (ocr_lang self) in
      match image_to_string env (ev :: tr) image (ocr_lang self) with
      | Ok t =>
          _ocr_page env self page_num tr = (Ok (strip t), ev' :: ev :: tr)
      | Raise => _ocr_page env self page_num tr = (Raise, ev' :: ev :: tr)
      end
  end.
Proof. run. repeat branch; reflexivity. Qed.

(** A run of the fallback returns stripped text. *)
Lemma ocr_page_stripped page_num tr t tr' :
  _ocr_page env self page_num tr = (Ok t, tr') -> strip t = t.
Proof.
  run. repeat branch; intros H; inversion H; subst;
    auto using strip_idem, strip_nil.
Qed.

(** A run of the fallback calls the rasteriser for its page exactly
    once. *)
Lemma ocr_page_runs page_num tr :
  fallback_runs page_num (snd (_ocr_page env self page_num tr))
  = S (fallback_runs page_num tr).
Proof.
  run. unfold fallback_runs.
  repeat branch; simpl; rewrite Z.eqb_refl; reflexivity.
Qed.

(** The extractor in terms of its two phases. *)
Lemma extract_text_from_page_unfold page_num tr :
  extract_text_from_page env self page_num tr =
  let record ocr_text := mkPageContent (page_num + 1) ocr_text OCR in
  let rescue tr1 :=
    match _ocr_page env self page_num tr1 with
    | (Ok ocr_text, tr2) => (Ok (record ocr_text), tr2)
    | (Raise, tr2) => (Ok (mkPageContent (page_num + 1) [] ERROR), tr2)
    end in
  match direct_extraction env page_num tr with
  | (Ok extracted_text, tr1) =>
      if (40 <=? length (strip extracted_text))%nat
      then (Ok (mkPageContent (page_num + 1) (strip extracted_text) TEXT),
            tr1)
      else match _ocr_page env self page_num tr1 with
           | (Ok ocr_text, tr2) => (Ok (record ocr_text), tr2)
           | (Raise, tr2) => rescue tr2
           end
  | (Raise, tr1) => rescue tr1
  end.
Proof.
  unfold extract_text_from_page, direct_extraction,
    try_except, bind, call, ret.
  repeat branch; try reflexivity; try congruence.
Qed.

End WithCollaborators.

End ExtractorFacts.

Section ExtractorClaims.
Import ExtractorSpec StripFacts ExtractorFacts Fixtures.

Context {Page Image : Type}.
Variable env : Collaborators Page Image.
Variable self : PDFChunker.

(** Direct extraction never calls the rasteriser. *)
Lemma direct_extraction_runs index tr :
  fallback_runs index (snd (direct_extraction env index tr))
  = fallback_runs index tr.
Proof.
  unfold direct_extraction, bind, call, ret, fallback_runs.
  repeat branch; reflexivity.
Qed.

(** The fallback runs at most twice for one page. *)
Lemma fallback_runs_at_most_two index tr :
  (fallback_runs index (snd (extract_text_from_page env self index tr))
   <= 2 + fallback_runs index tr)%nat.
Proof.
  rewrite extract_text_from_page_unfold. cbv zeta.
  pose proof (direct_extraction_runs index tr) as H0.
  destruct (direct_extraction env index tr) as [[t|] tr1]; simpl in H0.
  - destruct (40 <=? length (strip t))%nat; simpl; [lia|].
    pose proof (ocr_page_runs env self index tr1) as H1.
    destruct (_ocr_page env self index tr1) as [[t1|] tr2]; simpl in *;
      [lia|].
    pose proof (ocr_page_runs env self index tr2) as H2.
    destruct (_ocr_page env self index tr2) as [[t2|] tr3]; simpl in *; lia.
  - pose proof (ocr_page_runs env self index tr1) as H1.
    destruct (_ocr_page env self index tr1) as [[t1|] tr2]; simpl in *; lia.
Qed.

(** The extractor returns a record for its page whatever the
    collaborators do. *)
Lemma extract_text_from_page_total index tr :
  exists r tr',
    extract_text_from_page env self index tr = (Ok r, tr')
    /\ page_num r = index + 1.
Proof.
  rewrite extract_text_from_page_unfold. cbv zeta.
  repeat branch; eexists _, _; split; reflexivity.
Qed.

(** The page loop never stops early: it returns one record per page, in
    page order, numbered from the page indices. *)
Lemma extract_pages_total page_nums : forall tr,
  exists records tr',
    extract_pages env self page_nums tr = (Ok records, tr')
    /\ List.map page_num records = List.map (fun i => i + 1) page_nums.
Proof.
  induction page_nums as [|n rest IH]; intros tr.
  - exists [], tr. split; reflexivity.
  - destruct (extract_text_from_page_total n tr) as (r & tr1 & E & Hn).
    destruct (IH tr1) as (records & tr2 & Er & Hr).
    exists (r :: records), tr2. split.
    + cbn [extract_pages]. unfold bind at 1. rewrite E.
      unfold bind at 1. rewrite Er. reflexivity.
    + simpl. rewrite Hn, Hr. reflexivity.
Qed.

(** C4, as amended. The extractor always returns a record, and a record
    with empty text is tagged [OCR] or [ERROR], never [TEXT]. *)
Theorem extract_text_empty_not_TEXT (index : Z) (tr : Trace Page Image) :
  exists r tr',
    extract_text_from_page env self index tr = (Ok r, tr')
    /\ (text r = [] -> source_type r = OCR \/ source_type r = ERROR).
Proof.
  rewrite extract_text_from_page_unfold. cbv zeta.
  destruct (direct_extraction env index tr) as [[t|] tr1].
  - destruct (40 <=? length (strip t))%nat eqn:L.
    + eexists _, _. split; [reflexivity|]. simpl. intros E.
      rewrite E in L. discriminate.
    + destruct (_ocr_page env self index tr1) as [[t1|] tr2];
        [|destruct (_ocr_page env self index tr2) as [[t2|] tr3]];
        eexists _, _; (split; [reflexivity|]); simpl; auto.
  - destruct (_ocr_page env self index tr1) as [[t1|] tr2];
      eexists _, _; (split; [reflexivity|]); simpl; auto.
Qed.

(** C5. When direct extraction succeeds with at least 40 characters after
    stripping, the record is tagged [TEXT], its text is the stripped
    extracted text, and that is the extracted text less a run of
    whitespace at each end; the fallback is not called. *)
Theorem extract_text_usable (index : Z) (tr : Trace Page Image)
        (page : Page) (t : option pystr) :
  pages_getitem env tr index = Ok page ->
  page_extract_text env (PagesGetitem index :: tr) page = Ok t ->
  (40 <= length (strip (or_empty t)))%nat ->
  extract_text_from_page env self index tr
  = (Ok (mkPageContent (index + 1) (strip (or_empty t)) TEXT),
     ExtractText page :: PagesGetitem index :: tr)
  /\ exists pre post,
       or_empty t = pre ++ strip (or_empty t) ++ post
       /\ all_space pre /\ all_space post.
Proof.
  intros Hp Ht Hlen. split.
  - run. rewrite Hp, Ht. apply Nat.leb_le in Hlen. rewrite Hlen.
    reflexivity.
  - destruct (strip_spec (or_empty t)) as (pre & post & E & H1 & H2 & _).
    exists pre, post. auto.
Qed.



(** C10. The extractor always returns a record, and its text is
    stripped. *)
Theorem extract_text_stripped (index : Z) (tr : Trace Page Image) :
  exists r tr',
    extract_text_from_page env self index tr = (Ok r, tr')
    /\ strip (text r) = text r.
Proof.
  rewrite extract_text_from_page_unfold. cbv zeta.
  destruct (direct_extraction env index tr) as [[t|] tr1].
  - destruct (40 <=? length (strip t))%nat.
    + eexists _, _. split; [reflexivity|]. apply strip_idem.
    + destruct (_ocr_page env self index tr1) as [[t1|] tr2] eqn:E1;
        [|destruct (_ocr_page env self index tr2) as [[t2|] tr3] eqn:E2];
        eexists _, _; (split; [reflexivity|]); simpl;
        eauto using ocr_page_stripped.
  - destruct (_ocr_page env self index tr1) as [[t1|] tr2] eqn:E1;
      eexists _, _; (split; [reflexivity|]); simpl;
      eauto using ocr_page_stripped.
Qed.

End ExtractorClaims.

Section ExtractorExamples.
Import ExtractorSpec Fixtures.

Example text_page_record :
  fst (extract_text_from_page text_page chunker 0 [])
  = Ok (mkPageContent 1
          (lit "The quick brown fox jumps over the lazy dog, twice.") TEXT).
Proof. vm_compute. reflexivity. Qed.

Example scanned_page_record :
  extract_text_from_page scanned_page chunker 4 []
  = (Ok (mkPageContent 5 (lit "scanned") OCR),
     [ImageToString tt (lit "ara+eng");
      ConvertFromPath (lit "input/document.pdf") 5 5 300;
      ExtractText tt; PagesGetitem 4]).
Proof. vm_compute. reflexivity. Qed.

(** When text extraction itself raises, the fallback is tried once. *)
Example broken_page_record :
  extract_text_from_page broken_page chunker 0 []
  = (Ok (mkPageContent 1 [] ERROR),
     [ImageToString tt (lit "ara+eng");
      ConvertFromPath (lit "input/document.pdf") 1 1 300;
      ExtractText tt; PagesGetitem 0]).
Proof. vm_compute. reflexivity. Qed.

(** C4 fails as stated: a page for which the rasteriser returns no image
    is recorded with empty text and tagged [OCR]. *)
Lemma extract_text_empty_text_tagged_OCR :
  extract_text_from_page blank_page chunker 0 []
  = (Ok (mkPageContent 1 [] OCR),
     [ConvertFromPath (lit "input/document.pdf") 1 1 300;
      ExtractText tt; PagesGetitem 0])
  /\ ~ (forall (env : Collaborators unit unit) self index tr r tr',
          extract_text_from_page env self index tr = (Ok r, tr') ->
          text r = [] -> source_type r = ERROR).
Proof.
  assert (E : extract_text_from_page blank_page chunker 0 []
              = (Ok (mkPageContent 1 [] OCR),
                 [ConvertFromPath (lit "input/document.pdf") 1 1 300;
                  ExtractText tt; PagesGetitem 0]))
    by (vm_compute; reflexivity).
  split; [exact E|].
  intros H. specialize (H _ _ _ _ _ _ E eq_refl). discriminate H.
Qed.

Lemma extract_text_usable_witness :
  pages_getitem text_page [] 0 = Ok tt
  /\ page_extract_text text_page [PagesGetitem 0] tt = Ok (Some sentence)
  /\ (40 <= length (strip (or_empty (Some sentence))))%nat
  /\ extract_text_from_page text_page chunker 0 []
     = (Ok (mkPageContent (0 + 1) (strip (or_empty (Some sentence))) TEXT),
        [ExtractText tt; PagesGetitem 0]).
Proof.
  assert (H1 : pages_getitem text_page [] 0 = Ok tt) by reflexivity.
  assert (H2 : page_extract_text text_page [PagesGetitem 0] tt
               = Ok (Some sentence)) by reflexivity.
  assert (H3 : (40 <= length (strip (or_empty (Some sentence))))%nat)
    by (vm_compute; lia).
  split; [exact H1|]. split; [exact H2|]. split; [exact H3|].
  exact (proj1 (extract_text_usable text_page chunker 0 [] tt
                  (Some sentence) H1 H2 H3)).
Defined.



(** With a recogniser that fails on both runs the record is [ERROR]. *)
Example unreadable_page_runs :
  fallback_needed unreadable_page 0 []
  /\ fst (extract_text_from_page unreadable_page chunker 0 [])
     = Ok (mkPageContent 1 [] ERROR).
Proof. split; [vm_compute; lia | vm_compute; reflexivity]. Qed.

(** C7 fails on the code: on a scanned page whose recognition fails, the
    failure of the first fallback run is caught by the handler meant for
    extraction failures, which runs the fallback a second time. *)
Theorem extract_text_fallback_attempted_twice :
  let outcome := extract_text_from_page unreadable_page chunker 0 [] in
  outcome
  = (Ok (mkPageContent 1 [] ERROR),
     [ImageToString tt (lit "ara+eng");
      ConvertFromPath (lit "input/document.pdf") 1 1 300;
      ImageToString tt (lit "ara+eng");
      ConvertFromPath (lit "input/document.pdf") 1 1 300;
      ExtractText tt; PagesGetitem 0])
  /\ fallback_runs 0 (snd outcome) = 2%nat
  /\ recogniser_calls (snd outcome) = 2%nat.
Proof. vm_compute. repeat split. Qed.

End ExtractorExamples.

(* ================================================================== *)
(** ** Printed integers can be read back *)

Module FormatFacts.
Import FormatSpec.

Lemma undigits_digits d : undigits (digits d) = d.
Proof. induction d; simpl; congruence. Qed.

Lemma digits_chars d : Forall (fun c => digit_char c = true) (digits d).
Proof. induction d; simpl; constructor; auto. Qed.

Lemma digits_headed d : digit_headed (digits d).
Proof. destruct d; simpl; auto. Qed.

Lemma undigits_zeros k s :
  undigits (repeat 48%N k ++ s) = with_zeros k (undigits s).
Proof. induction k as [|k IH]; simpl; [reflexivity|]. rewrite IH. reflexivity. Qed.

Lemma of_uint_zeros k d : Z.of_uint (with_zeros k d) = Z.of_uint d.
Proof. induction k as [|k IH]; simpl; auto. Qed.

Lemma zeros_headed k s : digit_headed s -> digit_headed (repeat 48%N k ++ s).
Proof. destruct k; simpl; auto. Qed.

Lemma digit_not_space c : digit_char c = true -> (32 =? c)%N = false.
Proof.
  unfold digit_char. intros H. apply andb_prop in H. destruct H as [H _].
  apply N.leb_le in H. apply N.eqb_neq. lia.
Qed.

Lemma read_int_digits s :
  digit_headed s -> read_int s = Z.of_uint (undigits s).
Proof.
  unfold read_int. destruct s as [|c s]; [reflexivity|].
  intros H. cbn [dropwhile digit_headed] in *.
  rewrite (digit_not_space c H).
  unfold digit_char in H. apply andb_prop in H. destruct H as [H _].
  apply N.leb_le in H.
  replace (c =? 45)%N with false by (symmetry; apply N.eqb_neq; lia).
  reflexivity.
Qed.

Lemma read_int_minus s : read_int (45%N :: s) = - Z.of_uint (undigits s).
Proof. reflexivity. Qed.

Lemma read_int_spaces k s : read_int (repeat 32%N k ++ s) = read_int s.
Proof. induction k as [|k IH]; simpl; auto. Qed.

Lemma read_int_signed z k :
  read_int (sign_of z ++ repeat 48%N k ++ magnitude_of z) = z.
Proof.
  rewrite <- (DecimalZ.of_to z) at 3.
  unfold sign_of, magnitude_of. destruct (Z.to_int z) as [d|d]; simpl.
  - rewrite read_int_digits by (apply zeros_headed, digits_headed).
    rewrite undigits_zeros, of_uint_zeros, undigits_digits. reflexivity.
  - rewrite read_int_minus.
    rewrite undigits_zeros, of_uint_zeros, undigits_digits. reflexivity.
Qed.

(** Reading a printed integer gives the integer back, whatever the
    padding. *)
Lemma read_int_format_d zero width z : read_int (format_d zero width z) = z.
Proof.
  unfold format_d. destruct zero.
  - apply read_int_signed.
  - rewrite read_int_spaces. apply (read_int_signed z 0).
Qed.

Lemma format_d_inj zero width z z' :
  format_d zero width z = format_d zero width z' -> z = z'.
Proof.
  intros H. rewrite <- (read_int_format_d zero width z), H.
  apply read_int_format_d.
Qed.

Lemma format_d_chars zero width z :
  Forall (fun c => numeric_char c = true) (format_d zero width z).
Proof.
  assert (Hd : forall d, Forall (fun c => numeric_char c = true) (digits d)).
  { intros d. eapply Forall_impl; [|apply digits_chars].
    intros c Hc. unfold numeric_char. rewrite Hc. apply orb_true_r. }
  assert (Hr : forall c k, numeric_char c = true ->
               Forall (fun c => numeric_char c = true) (repeat c k)).
  { intros c k Hc. induction k; simpl; constructor; auto. }
  assert (Hs : Forall (fun c => numeric_char c = true) (sign_of z)).
  { unfold sign_of. destruct (Z.to_int z); repeat constructor. }
  assert (Hm : Forall (fun c => numeric_char c = true) (magnitude_of z)).
  { unfold magnitude_of. destruct (Z.to_int z); apply Hd. }
  unfold format_d. destruct zero.
  - apply Forall_app. split; [exact Hs|].
    apply Forall_app. split; [apply Hr; reflexivity | exact Hm].
  - apply Forall_app. split; [apply Hr; reflexivity|].
    apply Forall_app. split; [exact Hs | exact Hm].
Qed.

(** A printed integer does not contain a given non-numeric character. *)
Lemma format_d_free x zero width z :
  numeric_char x = false -> ~ In x (format_d zero width z).
Proof.
  intros Hx Hin. pose proof (format_d_chars zero width z) as H.
  rewrite Forall_forall in H. apply H in Hin. congruence.
Qed.

(** Two texts that agree up to and past the first occurrence of a
    delimiter agree on each side of it. *)
Lemma app_delim_inj (x : char) (a a' r r' : pystr) :
  ~ In x a -> ~ In x a' ->
  a ++ x :: r = a' ++ x :: r' -> a = a' /\ r = r'.
Proof.
  revert a'. induction a as [|c a IH]; intros [|c' a'] Ha Ha' E;
    simpl in *.
  - inversion E. auto.
  - inversion E. subst. exfalso. apply Ha'. auto.
  - inversion E. subst. exfalso. apply Ha. auto.
  - inversion E. subst.
    destruct (IH a') as [-> ->]; auto.
Qed.

End FormatFacts.

(* ================================================================== *)
(** ** The chunk writer and the log writer *)

Module WriterFacts.
Import Writer FormatSpec FormatFacts.

Lemma mentions_false x s : mentions x s = false -> ~ In x s.
Proof.
  unfold mentions. intros H Hin.
  assert (E : existsb (N.eqb x) s = true).
  { apply existsb_exists. exists x. split; [exact Hin | apply N.eqb_refl]. }
  congruence.
Qed.

(** A printed integer followed by a non-numeric delimiter can be cut
    off again. *)
Lemma format_d_delim x zero width z z' r r' :
  numeric_char x = false ->
  format_d zero width z ++ x :: r = format_d zero width z' ++ x :: r' ->
  z = z' /\ r = r'.
Proof.
  intros Hx E.
  apply app_delim_inj in E; try (apply format_d_free; exact Hx).
  destruct E as [E ->]. split; [|reflexivity].
  apply (format_d_inj _ _ _ _ E).
Qed.

(** The same when a run of numeric characters [pad] stands between the
    integer and the delimiter. *)
Lemma format_d_pad_delim x pad zero width z z' r r' :
  numeric_char x = false ->
  Forall (fun c => numeric_char c = true) pad ->
  format_d zero width z ++ pad ++ x :: r
  = format_d zero width z' ++ pad ++ x :: r' ->
  z = z' /\ r = r'.
Proof.
  intros Hx Hpad E. rewrite !app_assoc in E.
  assert (Hfree : forall y, ~ In x (format_d zero width y ++ pad)).
  { intros y Hin. apply in_app_or in Hin. destruct Hin as [Hin|Hin].
    - revert Hin. apply format_d_free. exact Hx.
    - rewrite Forall_forall in Hpad. apply Hpad in Hin. congruence. }
  apply app_delim_inj in E; auto.
  destruct E as [E ->]. split; [|reflexivity].
  apply app_inv_tail in E. apply (format_d_inj _ _ _ _ E).
Qed.

(** The chunk ordinal and the two page numbers can be read off the file
    name. *)
Lemma chunk_filename_inj i s e i' s' e' :
  chunk_filename i s e = chunk_filename i' s' e' ->
  i = i' /\ s = s' /\ e = e'.
Proof.
  unfold chunk_filename. intros E.
  apply app_inv_head in E.
  apply (format_d_delim 95%N true 3 _ _
           (112%N :: format_d true 3 s ++ lit "-p"
              ++ format_d true 3 e ++ lit ".md")
           (112%N :: format_d true 3 s' ++ lit "-p"
              ++ format_d true 3 e' ++ lit ".md")) in E; [|reflexivity].
  destruct E as [Ei E].
  apply (app_inv_head [112%N]) in E.
  apply (format_d_pad_delim 112%N [45%N] true 3 _ _
           (format_d true 3 e ++ lit ".md")
           (format_d true 3 e' ++ lit ".md")) in E;
    [|reflexivity | repeat constructor].
  destruct E as [Es E].
  apply (format_d_delim 46%N true 3 _ _ (lit "md") (lit "md")) in E;
    [|reflexivity].
  destruct E as [Ee _].
  repeat split; auto. lia.
Qed.

Lemma write_file_same fs path content :
  write_file fs path content path = Some content.
Proof.
  unfold write_file, pystr_eqb.
  destruct (list_eq_dec N.eq_dec path path); congruence.
Qed.

Lemma write_file_other fs path content p :
  p <> path -> write_file fs path content p = fs p.
Proof.
  unfold write_file, pystr_eqb. intros H.
  destruct (list_eq_dec N.eq_dec p path); congruence.
Qed.

(** Cutting a newline-terminated line off the front of a text. *)
Lemma lines_from_line cur l s :
  ~ In 10%N l ->
  lines_from cur (l ++ 10%N :: s) = (rev cur ++ l) :: lines_from [] s.
Proof.
  revert cur. induction l as [|c l IH]; intros cur H.
  - simpl. rewrite app_nil_r. reflexivity.
  - cbn [app lines_from].
    replace (c =? 10)%N with false
      by (symmetry; apply N.eqb_neq; intros ->; apply H; left; reflexivity).
    rewrite IH by (intros Hin; apply H; right; exact Hin).
    simpl. rewrite <- app_assoc. reflexivity.
Qed.

Lemma lines_terminated ls :
  Forall (fun l => ~ In 10%N l) ls ->
  lines (concat (List.map (fun l => l ++ nl) ls)) = ls.
Proof.
  unfold lines, nl. induction 1 as [|l ls Hl _ IH]; [reflexivity|].
  cbn [List.map concat]. rewrite <- app_assoc. cbn [app].
  rewrite lines_from_line by exact Hl. rewrite IH. reflexivity.
Qed.

Lemma fold_writes (pages : list PageContent) : forall f,
  fold_left (fun f page => f ++ (log_row page ++ nl)) pages f
  = f ++ concat (List.map (fun l => l ++ nl) (List.map log_row pages)).
Proof.
  induction pages as [|page pages IH]; intros f; simpl.
  - rewrite app_nil_r. reflexivity.
  - rewrite IH, <- app_assoc. reflexivity.
Qed.

(** The log text is its header lines and one line per page, each
    newline-terminated. *)
Lemma log_text_lines pages :
  log_text pages
  = concat (List.map (fun l => l ++ nl)
                     (log_header ++ List.map log_row pages)).
Proof.
  unfold log_text. cbv zeta. rewrite fold_writes.
  rewrite map_app, concat_app. reflexivity.
Qed.

(** A log row holds no newline. *)
Lemma log_row_one_line page : ~ In 10%N (log_row page).
Proof.
  unfold log_row. intros Hin.
  apply in_app_or in Hin. destruct Hin as [Hin|Hin].
  - revert Hin. apply format_d_free. reflexivity.
  - apply in_app_or in Hin. destruct Hin as [Hin|Hin]; revert Hin;
      apply mentions_false; [reflexivity|].
    destruct (source_type page); reflexivity.
Qed.

Lemma log_header_one_line : Forall (fun l => ~ In 10%N l) log_header.
Proof. repeat constructor; apply mentions_false; reflexivity. Qed.

(** The page number and the source tag can be read off a log row. *)
Lemma log_row_inj p q :
  log_row p = log_row q ->
  page_num p = page_num q /\ source_type p = source_type q.
Proof.
  unfold log_row. intros E.
  apply (format_d_pad_delim 124%N (repeat 32%N 6) false 6 _ _
           (32%N :: source_name (source_type p))
           (32%N :: source_name (source_type q))) in E;
    [|reflexivity | repeat constructor].
  destruct E as [En Es]. split; [exact En|].
  destruct (source_type p), (source_type q);
    try reflexivity; discriminate Es.
Qed.

End WriterFacts.

Section WriterClaims.
Import Writer OrchestratorSpec FormatFacts WriterFacts Fixtures.

Example format_03d_examples :
  format_d true 3 7 = lit "007" /\ format_d true 3 42 = lit "042"
  /\ format_d true 3 1234 = lit "1234" /\ format_d true 3 (-5) = lit "-05"
  /\ format_d true 3 0 = lit "000".
Proof. vm_compute. repeat split. Qed.

Example format_6d_examples :
  format_d false 6 7 = lit "     7" /\ format_d false 6 (-12) = lit "   -12"
  /\ format_d false 6 1234567 = lit "1234567".
Proof. vm_compute. repeat split. Qed.

Example chunk_filename_widens :
  chunk_filename 999 1000 1012 = lit "chunk_1000_p1000-p1012.md".
Proof. vm_compute. reflexivity. Qed.

Example write_chunk_file_empty fs : write_chunk_file 0 [] fs = (Raise, fs).
Proof. reflexivity. Qed.

Example chunk_content_example :
  chunk_content 0 3 4
    (join nl (List.map page_section
                [mkPageContent 3 (lit "ab") TEXT;
                 mkPageContent 4 (lit "cd") OCR]))
  = join nl
      ([lit "### CHUNK_META"; lit "CHUNK_ID: 001"; lit "PAGES: 3-4"; []]
       ++ instructions
       ++ [[]; lit "### TEXT";
           lit "---- [Page 3] ----"; lit "ab"; [];
           lit "---- [Page 4] ----"; lit "cd"; []]).
Proof. vm_compute. reflexivity. Qed.

Example log_text_example :
  log_text [mkPageContent 1 (lit "ab") TEXT; mkPageContent 2 [] ERROR]
  = lit "Page Number | Source Type" ++ nl
    ++ lit "------------------------------" ++ nl
    ++ lit "     1      | TEXT" ++ nl
    ++ lit "     2      | ERROR" ++ nl.
Proof. vm_compute. reflexivity. Qed.

(** C8. The file [write_chunk_file] opens for a chunk is named by
    [chunk_filename] from the chunk index and the page numbers of its
    first and last page, and from nothing else: that file, under
    [output/chunks], is the only path the call touches, holding the
    chunk's text when the call returns and nothing when the text cannot
    be encoded as UTF-8 and the call raises; chunk 1 over pages 3 to 7 is [chunk_001_p003-p007.md]; and the
    three numbers can be read back from the name. *)
Theorem write_chunk_file_name :
  (forall chunk_index first rest fs,
      let filename :=
        chunk_filename chunk_index (page_num first)
                       (page_num (last rest first)) in
      let filepath := path_join chunks_dir filename in
      let outcome := write_chunk_file chunk_index (first :: rest) fs in
      exists content,
        snd outcome = write_file fs filepath content
        /\ snd outcome filepath = Some content
        /\ (forall p, p <> filepath -> snd outcome p = fs p)
        /\ ((fst outcome = Ok tt
             /\ utf8_encodable (chunk_text chunk_index (first :: rest))
                = true
             /\ content = chunk_text chunk_index (first :: rest))
            \/ (fst outcome = Raise
                /\ utf8_encodable (chunk_text chunk_index (first :: rest))
                   = false
                /\ content = [])))
  /\ chunk_filename 0 3 7 = lit "chunk_001_p003-p007.md"
  /\ (forall i s e i' s' e',
         chunk_filename i s e = chunk_filename i' s' e' ->
         i = i' /\ s = s' /\ e = e').
Proof.
  split; [|split].
  - intros chunk_index first rest fs filename filepath outcome.
    assert (Hlast : last (first :: rest) first = last rest first)
      by (destruct rest; reflexivity).
    subst outcome. unfold write_chunk_file. cbv zeta.
    fold (chunk_text chunk_index (first :: rest)).
    unfold chunk_text at 1.
    destruct (utf8_encodable _) eqn:Henc; cbn [fst snd];
      rewrite Hlast; fold filename; fold filepath.
    + exists (chunk_text chunk_index (first :: rest)).
      split; [unfold chunk_text; rewrite Hlast; reflexivity|].
      split; [unfold chunk_text; rewrite Hlast; apply write_file_same|].
      split; [intros p Hp; apply write_file_other; exact Hp|].
      left. split; [reflexivity|]. split; reflexivity.
    + exists []. split; [reflexivity|].
      split; [apply write_file_same|].
      split; [intros p Hp; apply write_file_other; exact Hp|].
      right. split; [reflexivity|]. split; reflexivity.
  - vm_compute. reflexivity.
  - apply chunk_filename_inj.
Qed.

(** C9. The log file holds the two header lines and then one row per
    page record, in input order; the row of a page is made of its page
    number and its source tag, and both can be read back from it. *)
Theorem write_log_rows (pages_content : list PageContent) (fs : FS) :
  let log_file := path_join logs_dir (lit "page_sources.txt") in
  write_log pages_content fs log_file = Some (log_text pages_content)
  /\ lines (log_text pages_content)
     = log_header ++ List.map log_row pages_content
  /\ length (lines (log_text pages_content))
     = (2 + length pages_content)%nat
  /\ (forall i page,
         nth_error pages_content i = Some page ->
         nth_error (lines (log_text pages_content)) (2 + i)
         = Some (log_row page))
  /\ (forall page,
         log_row page
         = format_d false 6 (page_num page) ++ lit "      | "
             ++ source_name (source_type page))
  /\ (forall p q,
         log_row p = log_row q ->
         page_num p = page_num q /\ source_type p = source_type q).
Proof.
  intros log_file.
  assert (Hlines : lines (log_text pages_content)
                   = log_header ++ List.map log_row pages_content).
  { rewrite log_text_lines. apply lines_terminated.
    apply Forall_app. split; [apply log_header_one_line|].
    apply Forall_forall. intros l Hin. apply in_map_iff in Hin.
    destruct Hin as (page & <- & _). apply log_row_one_line. }
  split; [apply write_file_same|].
  split; [exact Hlines|].
  split; [rewrite Hlines, length_app, length_map; reflexivity|].
  split; [|split; [reflexivity | apply log_row_inj]].
  intros i page Hi. rewrite Hlines. cbn [log_header app nth_error Nat.add].
  apply map_nth_error. exact Hi.
Qed.

End WriterClaims.

(* ================================================================== *)
(** ** More on the packer *)

Module PackFacts.
Import Packer PackerSpec PackerFacts OrchestratorSpec.

(** The loop of [create_chunks], resumed from any state, is [pack]. *)
Lemma fold_pack self pages : forall st,
  finish (fold_left (step self) pages st)
  = chunks st ++ pack self (current_chunk st) (current_word_count st) pages.
Proof.
  induction pages as [|p pages IH]; intros st.
  - unfold finish. simpl. destruct (nonempty (current_chunk st));
      [reflexivity | rewrite app_nil_r; reflexivity].
  - cbn [fold_left pack]. rewrite IH. unfold step.
    destruct (nonempty (current_chunk st));
      destruct (current_word_count st + word_count p >? max_words self);
      destruct (Z.of_nat (length (current_chunk st)) >=? max_pages self);
      cbn [andb orb chunks current_chunk current_word_count app];
      try reflexivity; rewrite <- app_assoc; reflexivity.
Qed.

Lemma create_chunks_pack self pages :
  create_chunks self pages = pack self [] 0 pages.
Proof. unfold create_chunks. rewrite fold_pack. reflexivity. Qed.

(** The open chunk is the start of the first chunk returned. *)
Lemma pack_head self pages : forall cur cwc,
  cur <> [] ->
  exists more rest, pack self cur cwc pages = (cur ++ more) :: rest.
Proof.
  induction pages as [|p pages IH]; intros cur cwc Hne.
  - exists [], []. simpl. destruct cur; [contradiction|].
    rewrite app_nil_r. reflexivity.
  - cbn [pack].
    destruct (nonempty cur
              && ((cwc + word_count p >? max_words self)
                  || (Z.of_nat (length cur) >=? max_pages self))).
    + exists [], (pack self [p] (0 + word_count p) pages).
      rewrite app_nil_r. reflexivity.
    + destruct (IH (cur ++ [p]) (cwc + word_count p)) as (more & rest & E).
      { destruct cur; discriminate. }
      exists (p :: more), rest. rewrite E, <- app_assoc. reflexivity.
Qed.

Lemma pack_boundaries self pages : forall cur cwc,
  cwc = total_words cur ->
  boundaries_forced self (pack self cur cwc pages).
Proof.
  induction pages as [|p pages IH]; intros cur cwc Hc.
  - simpl. destruct (nonempty cur); simpl; auto.
  - cbn [pack].
    destruct (nonempty cur) eqn:Hne; cbn [andb].
    + destruct ((cwc + word_count p >? max_words self)
                || (Z.of_nat (length cur) >=? max_pages self)) eqn:Hx.
      * destruct (pack_head self pages [p] (0 + word_count p))
          as (more & rest & E); [discriminate|].
        pose proof (IH [p] (0 + word_count p)) as Hrest.
        rewrite E in *. cbn [app boundaries_forced]. split.
        -- unfold would_exceed. apply orb_prop in Hx.
           destruct Hx as [Hx|Hx].
           ++ left. rewrite <- Hc. apply Z.gtb_lt in Hx. lia.
           ++ right. apply Z.geb_le in Hx. lia.
        -- apply Hrest. rewrite total_words_single. lia.
      * apply IH. rewrite total_words_app, total_words_single. lia.
    + apply IH. rewrite total_words_app, total_words_single. lia.
Qed.

Lemma boundaries_forced_at self chunks : forall before c1 c2 after,
  boundaries_forced self chunks ->
  chunks = before ++ c1 :: c2 :: after ->
  exists p rest, c2 = p :: rest /\ would_exceed self c1 p.
Proof.
  induction chunks as [|c chunks IH]; intros before c1 c2 after H E.
  - destruct before; discriminate.
  - destruct before as [|b before]; simpl in E.
    + inversion E. subst. cbn [boundaries_forced] in H.
      destruct H as [H _]. destruct c2 as [|p rest]; [contradiction|].
      exists p, rest. auto.
    + inversion E. subst.
      apply (IH before c1 c2 after); [|reflexivity].
      destruct (before ++ c1 :: c2 :: after) eqn:El.
      * destruct before; discriminate.
      * cbn [boundaries_forced] in H. apply H.
Qed.

Lemma chunks_nonempty self pages :
  Forall (fun c => c <> []) (create_chunks self pages).
Proof.
  apply Forall_forall. intros c Hin. unfold create_chunks in Hin.
  apply in_finish in Hin. destruct Hin as [Hin|[-> Hne]]; auto.
  pose proof (fold_invariant self pages init (init_invariant self))
    as [Hc _ _ _].
  rewrite Forall_forall in Hc. auto.
Qed.

Lemma chunks_within_pages self pages :
  1 <= max_pages self ->
  Forall (within_pages self) (create_chunks self pages).
Proof.
  intros H1. apply Forall_forall. intros c Hin. unfold create_chunks in Hin.
  apply in_finish in Hin.
  pose proof (fold_page_invariant self pages init H1
                (init_page_invariant self H1)) as [Hc Ho].
  destruct Hin as [Hin|[-> _]]; auto.
  rewrite Forall_forall in Hc. auto.
Qed.

Lemma concat_length_lower {A} (l : list (list A)) :
  Forall (fun c => c <> []) l -> (length l <= length (concat l))%nat.
Proof.
  induction 1 as [|c l Hc _ IH]; simpl; [lia|].
  rewrite length_app. destruct c; [contradiction|]. simpl. lia.
Qed.

Lemma concat_length_upper {A} (m : Z) (l : list (list A)) :
  Forall (fun c => Z.of_nat (length c) <= m) l ->
  Z.of_nat (length (concat l)) <= m * Z.of_nat (length l).
Proof.
  induction 1 as [|c l Hc _ IH]; simpl; [lia|].
  rewrite length_app. lia.
Qed.

Lemma pack_fits self pages : forall cur cwc,
  cwc = total_words cur ->
  cur ++ pages <> [] ->
  total_words (cur ++ pages) <= max_words self ->
  Z.of_nat (length (cur ++ pages)) <= max_pages self ->
  pack self cur cwc pages = [cur ++ pages].
Proof.
  induction pages as [|p pages IH]; intros cur cwc Hc Hne Hw Hp.
  - rewrite app_nil_r in *. simpl. destruct cur; [contradiction|reflexivity].
  - cbn [pack].
    assert (Hfalse : nonempty cur
                     && ((cwc + word_count p >? max_words self)
                         || (Z.of_nat (length cur) >=? max_pages self))
                     = false).
    { destruct (nonempty cur); [|reflexivity]. cbn [andb].
      rewrite total_words_app in Hw.
      change (p :: pages) with ([p] ++ pages) in Hw.
      rewrite total_words_app, total_words_single in Hw.
      pose proof (total_words_nonneg pages).
      rewrite length_app in Hp. simpl in Hp.
      apply orb_false_iff. split.
      - rewrite Z.gtb_ltb. apply Z.ltb_ge. lia.
      - rewrite Z.geb_leb. apply Z.leb_gt. lia. }
    rewrite Hfalse.
    replace (cur ++ p :: pages) with ((cur ++ [p]) ++ pages) in *
      by (rewrite <- app_assoc; reflexivity).
    apply IH; auto.
    rewrite total_words_app, total_words_single. lia.
Qed.

Lemma pack_singletons self pages : forall q,
  max_pages self <= 1 \/ max_words self < 0 ->
  pack self [q] (word_count q) pages
  = List.map (fun p => [p]) (q :: pages).
Proof.
  induction pages as [|p pages IH]; intros q H; [reflexivity|].
  cbn [pack nonempty andb].
  assert (Hx : (word_count q + word_count p >? max_words self)
               || (Z.of_nat (length [q]) >=? max_pages self) = true).
  { pose proof (word_count_nonneg p). pose proof (word_count_nonneg q).
    apply orb_true_iff. destruct H as [H|H].
    - right. apply Z.geb_le. simpl. lia.
    - left. apply Z.gtb_lt. lia. }
  rewrite Hx. cbn [List.map]. f_equal.
  rewrite Z.add_0_l. apply IH. exact H.
Qed.

End PackFacts.

Module NumberingFacts.
Import OrchestratorSpec.

Lemma numbered_from_cons k p l :
  numbered_from k (p :: l) <-> page_num p = k /\ numbered_from (k + 1) l.
Proof.
  unfold numbered_from. cbn [length seq List.map].
  rewrite <- seq_shift, map_map.
  replace (k + Z.of_nat 0) with k by lia.
  assert (E : List.map (fun i => k + Z.of_nat (S i)) (seq 0 (length l))
              = List.map (fun i => k + 1 + Z.of_nat i) (seq 0 (length l))).
  { apply map_ext. intros i. lia. }
  rewrite E. split.
  - intros H. inversion H. auto.
  - intros [-> ->]. reflexivity.
Qed.

Lemma numbered_from_app k a : forall k' b,
  k' = k ->
  numbered_from k' (a ++ b) ->
  numbered_from k a /\ numbered_from (k + Z.of_nat (length a)) b.
Proof.
  revert k. induction a as [|p a IH]; intros k k' b -> H.
  - simpl in *. replace (k + 0) with k by lia. split; [reflexivity|exact H].
  - cbn [app] in H. apply numbered_from_cons in H. destruct H as [Hp H].
    destruct (IH (k + 1) (k + 1) b eq_refl H) as [Ha Hb]. split.
    + apply numbered_from_cons. auto.
    + cbn [length]. replace (k + Z.of_nat (S (length a)))
        with (k + 1 + Z.of_nat (length a)) by lia. exact Hb.
Qed.

Lemma last_cons {A} (rest : list A) : forall p d,
  last (p :: rest) d = last rest p.
Proof.
  induction rest as [|q rest IH]; intros p d; [reflexivity|].
  change (last (p :: q :: rest) d) with (last (q :: rest) d).
  rewrite IH. symmetry. apply IH.
Qed.

Lemma numbered_from_last rest : forall k first,
  numbered_from k (first :: rest) ->
  page_num (last rest first) = k + Z.of_nat (length rest).
Proof.
  induction rest as [|p rest IH]; intros k first H.
  - apply numbered_from_cons in H. simpl. lia.
  - apply numbered_from_cons in H. destruct H as [_ H].
    rewrite last_cons, (IH (k + 1) p H). cbn [length]. lia.
Qed.

End NumberingFacts.

Section PackerExtras.
Import Packer PackerSpec PackerFacts OrchestratorSpec PackFacts.
Import NumberingFacts Fixtures.

(** X1. The packer is greedy: wherever one chunk ends and the next
    begins, the first page of the next chunk could not have joined the
    chunk before it, for words or for pages. *)
Theorem create_chunks_boundaries_forced (self : PDFChunker)
        (pages_content : list PageContent)
        (before after : list (list PageContent)) (c1 c2 : list PageContent) :
  create_chunks self pages_content = before ++ c1 :: c2 :: after ->
  exists p rest,
    c2 = p :: rest
    /\ (total_words c1 + word_count p > max_words self
        \/ Z.of_nat (length c1) >= max_pages self).
Proof.
  intros E.
  apply (boundaries_forced_at self (create_chunks self pages_content)
                              before c1 c2 after); [|exact E].
  rewrite create_chunks_pack. apply pack_boundaries. reflexivity.
Qed.

Lemma create_chunks_boundaries_forced_witness :
  let p i := page_of_words i 2 in
  create_chunks (limits 5 10) [p 1; p 2; p 3]
  = [] ++ [p 1; p 2] :: [p 3] :: []
  /\ exists q rest,
       [p 3] = q :: rest
       /\ (total_words [p 1; p 2] + word_count q > max_words (limits 5 10)
           \/ Z.of_nat (length [p 1; p 2]) >= max_pages (limits 5 10)).
Proof.
  intros p.
  assert (E : create_chunks (limits 5 10) [p 1; p 2; p 3]
              = [] ++ [p 1; p 2] :: [p 3] :: [])
    by (vm_compute; reflexivity).
  split; [exact E|].
  exact (create_chunks_boundaries_forced (limits 5 10) [p 1; p 2; p 3]
           [] [] [p 1; p 2] [p 3] E).
Defined.

(** X2. The packer returns no chunk exactly for an empty page list, never
    more chunks than pages, and, with a page ceiling of at least one,
    enough chunks to hold all pages. *)
Theorem create_chunks_count (self : PDFChunker)
        (pages_content : list PageContent) :
  (create_chunks self pages_content = [] <-> pages_content = [])
  /\ (length (create_chunks self pages_content)
      <= length pages_content)%nat
  /\ (1 <= max_pages self ->
      Z.of_nat (length pages_content)
      <= max_pages self
         * Z.of_nat (length (create_chunks self pages_content))).
Proof.
  pose proof (create_chunks_concat self pages_content) as Hcat.
  pose proof (chunks_nonempty self pages_content) as Hne.
  split; [split|split].
  - intros E. rewrite E in Hcat. simpl in Hcat. congruence.
  - intros ->. reflexivity.
  - rewrite <- Hcat at 2. apply concat_length_lower, Hne.
  - intros H1. rewrite <- Hcat at 1.
    apply concat_length_upper.
    apply (chunks_within_pages self pages_content H1).
Qed.

(** X3. Pages that fit both limits together come back as one chunk. *)
Theorem create_chunks_single_chunk (self : PDFChunker)
        (pages_content : list PageContent) :
  pages_content <> [] ->
  total_words pages_content <= max_words self ->
  Z.of_nat (length pages_content) <= max_pages self ->
  create_chunks self pages_content = [pages_content].
Proof.
  intros Hne Hw Hp. rewrite create_chunks_pack.
  apply (pack_fits self pages_content [] 0); auto.
Qed.

Lemma create_chunks_single_chunk_witness :
  let pages := [page_of_words 1 3; page_of_words 2 0; page_of_words 3 4] in
  pages <> []
  /\ total_words pages <= max_words (limits 7 3)
  /\ Z.of_nat (length pages) <= max_pages (limits 7 3)
  /\ create_chunks (limits 7 3) pages = [pages].
Proof.
  intros pages.
  assert (H1 : pages <> []) by discriminate.
  assert (H2 : total_words pages <= max_words (limits 7 3))
    by (vm_compute; discriminate).
  assert (H3 : Z.of_nat (length pages) <= max_pages (limits 7 3))
    by (vm_compute; discriminate).
  split; [exact H1|]. split; [exact H2|]. split; [exact H3|].
  exact (create_chunks_single_chunk (limits 7 3) pages H1 H2 H3).
Defined.

(** X4. With a page ceiling of one or less, or a negative word ceiling,
    the packer neither fails nor loops: it puts every page in a chunk of
    its own. *)
Theorem create_chunks_degenerate_limits (self : PDFChunker)
        (pages_content : list PageContent) :
  max_pages self <= 1 \/ max_words self < 0 ->
  create_chunks self pages_content
  = List.map (fun p => [p]) pages_content.
Proof.
  intros H. rewrite create_chunks_pack.
  destruct pages_content as [|q pages]; [reflexivity|].
  cbn [pack nonempty andb app]. rewrite Z.add_0_l.
  apply pack_singletons. exact H.
Qed.

Lemma create_chunks_degenerate_limits_witness :
  let pages := [page_of_words 1 1; page_of_words 2 1; page_of_words 3 1] in
  (max_pages (limits 3500 (-4)) <= 1 \/ max_words (limits 3500 (-4)) < 0)
  /\ create_chunks (limits 3500 (-4)) pages
     = List.map (fun p => [p]) pages.
Proof.
  intros pages.
  assert (H : max_pages (limits 3500 (-4)) <= 1
              \/ max_words (limits 3500 (-4)) < 0)
    by (left; vm_compute; discriminate).
  split; [exact H|].
  exact (create_chunks_degenerate_limits (limits 3500 (-4)) pages H).
Defined.

(** X5. When the pages are numbered consecutively, as [process_pdf]
    numbers them, each chunk covers exactly the page range from its first
    to its last page number: the range starts where the chunks before it
    end and counts as many numbers as the chunk has pages. *)
Theorem create_chunks_page_range (self : PDFChunker)
        (pages_content : list PageContent) (k : Z)
        (before after : list (list PageContent))
        (first : PageContent) (rest : list PageContent) :
  numbered_from k pages_content ->
  create_chunks self pages_content = before ++ (first :: rest) :: after ->
  page_num first = k + Z.of_nat (length (concat before))
  /\ page_num (last rest first) = page_num first + Z.of_nat (length rest)
  /\ numbered_from (page_num first) (first :: rest).
Proof.
  intros Hnum E.
  pose proof (create_chunks_concat self pages_content) as Hcat.
  rewrite E, concat_app in Hcat. cbn [concat] in Hcat.
  rewrite <- Hcat in Hnum.
  apply (numbered_from_app k (concat before) k _ eq_refl) in Hnum.
  destruct Hnum as [_ Hnum].
  apply (numbered_from_app _ (first :: rest) _ _ eq_refl) in Hnum.
  destruct Hnum as [Hc _].
  pose proof Hc as Hc'. apply numbered_from_cons in Hc'.
  destruct Hc' as [Hf _].
  split; [exact Hf|]. rewrite Hf. split; [|exact Hc].
  apply numbered_from_last. exact Hc.
Qed.

Lemma create_chunks_page_range_witness :
  let p i := page_of_words i 2 in
  numbered_from 1 [p 1; p 2; p 3]
  /\ create_chunks (limits 5 10) [p 1; p 2; p 3]
     = [[p 1; p 2]] ++ (p 3 :: []) :: []
  /\ page_num (p 3) = 1 + Z.of_nat (length (concat [[p 1; p 2]])).
Proof.
  intros p.
  assert (H : numbered_from 1 [p 1; p 2; p 3]) by reflexivity.
  assert (E : create_chunks (limits 5 10) [p 1; p 2; p 3]
              = [[p 1; p 2]] ++ (p 3 :: []) :: [])
    by (vm_compute; reflexivity).
  split; [exact H|]. split; [exact E|].
  exact (proj1 (create_chunks_page_range (limits 5 10) [p 1; p 2; p 3] 1
                  [[p 1; p 2]] [] (p 3) [] H E)).
Defined.

End PackerExtras.

(* ================================================================== *)
(** ** Counting words *)

Module SplitFacts.
Import ExtractorSpec.

Lemma split_from_nil s : forall cur,
  split_from cur s = [] <-> cur = [] /\ all_space s.
Proof.
  unfold all_space.
  induction s as [|c s IH]; intros cur.
  - simpl. destruct cur; split; intros H; auto; try discriminate.
    destruct H; discriminate.
  - cbn [split_from]. destruct (isspace c) eqn:Hc.
    + destruct cur.
      * rewrite IH. split; intros [H1 H2]; split; auto.
        inversion H2; auto.
      * split; [discriminate | intros [H _]; discriminate].
    + rewrite IH. split.
      * intros [H _]. discriminate.
      * intros [_ H]. inversion H. congruence.
Qed.

Lemma split_from_words s : forall cur,
  Forall (fun c => isspace c = false) cur ->
  Forall (fun w => w <> [] /\ Forall (fun c => isspace c = false) w)
         (split_from cur s).
Proof.
  assert (Hrev : forall c cur,
             Forall (fun c => isspace c = false) (c :: cur) ->
             rev (c :: cur) <> []
             /\ Forall (fun c => isspace c = false) (rev (c :: cur))).
  { intros c cur H. split; [|apply Forall_rev; exact H].
    simpl. destruct (rev cur); discriminate. }
  induction s as [|c s IH]; intros cur Hcur.
  - simpl. destruct cur; constructor; auto.
  - cbn [split_from]. destruct (isspace c) eqn:Hc.
    + destruct cur; [apply IH; constructor|].
      constructor; [apply Hrev; exact Hcur | apply IH; constructor].
    + apply IH. constructor; auto.
Qed.

Lemma split_from_concat s : forall cur,
  concat (split_from cur s)
  = rev cur ++ filter (fun c => negb (isspace c)) s.
Proof.
  induction s as [|c s IH]; intros cur.
  - simpl. destruct cur; simpl; rewrite ?app_nil_r; reflexivity.
  - cbn [split_from filter]. destruct (isspace c) eqn:Hc; cbn [negb].
    + destruct cur; [apply IH|].
      cbn [concat]. rewrite IH. reflexivity.
    + rewrite IH. simpl. rewrite <- app_assoc. reflexivity.
Qed.

End SplitFacts.

Section WordCountExtras.
Import ExtractorSpec SplitFacts Fixtures.

(** X6. A page counts zero words exactly when its text is empty or all
    whitespace. *)
Theorem word_count_zero (p : PageContent) :
  word_count p = 0 <-> all_space (text p).
Proof.
  unfold word_count, split.
  pose proof (split_from_nil (text p) []) as H.
  split.
  - intros E. apply H. destruct (split_from [] (text p)); [reflexivity|].
    simpl in E. lia.
  - intros Hs. destruct H as [_ H]. rewrite H; auto.
Qed.

(** X7. The words a page is counted by are non-empty runs of
    non-whitespace characters, and together, in order, they are exactly
    the non-whitespace characters of the text; so a page never counts
    more words than it has such characters. *)
Theorem word_count_words (p : PageContent) :
  Forall (fun w => w <> [] /\ Forall (fun c => isspace c = false) w)
         (split (text p))
  /\ concat (split (text p))
     = filter (fun c => negb (isspace c)) (text p)
  /\ word_count p
     <= Z.of_nat (length (filter (fun c => negb (isspace c)) (text p))).
Proof.
  pose proof (split_from_words (text p) [] (Forall_nil _)) as Hw.
  pose proof (split_from_concat (text p) []) as Hc. simpl in Hc.
  fold (split (text p)) in Hw, Hc.
  split; [exact Hw|]. split; [exact Hc|].
  unfold word_count. rewrite <- Hc.
  apply Nat2Z.inj_le.
  clear Hc. induction Hw as [|w l [Hne _] _ IH]; simpl; [lia|].
  rewrite length_app. destruct w; [contradiction|]. simpl. lia.
Qed.

End WordCountExtras.

(* ================================================================== *)
(** ** More on the extractor *)

Section ExtractorExtras.
Import ExtractorSpec OrchestratorSpec StripFacts ExtractorFacts Fixtures.

Context {Page Image : Type}.
Variable env : Collaborators Page Image.
Variable self : PDFChunker.

(** X8. One run of the OCR fallback rasterises exactly the requested
    page, once, at 300 dpi, and then calls the recogniser at most once:
    on the first image returned, with the configured language. *)
Theorem ocr_page_calls (index : Z) (tr : Trace Page Image) :
  let ev := ConvertFromPath (pdf_path self) (index + 1) (index + 1) 300 in
  (snd (_ocr_page env self index tr) = ev :: tr
   /\ forall image rest,
        convert_from_path env tr (pdf_path self) (index + 1) (index + 1) 300
        <> Ok (image :: rest))
  \/ exists image rest,
       convert_from_path env tr (pdf_path self) (index + 1) (index + 1) 300
       = Ok (image :: rest)
       /\ snd (_ocr_page env self index tr)
          = ImageToString image (ocr_lang self) :: ev :: tr.
Proof.
  intros ev. subst ev. run.
  destruct (convert_from_path env tr (pdf_path self)
              (index + 1) (index + 1) 300) as [[|image rest]|].
  - left. split; [reflexivity | discriminate].
  - right. exists image, rest. split; [reflexivity|].
    destruct (image_to_string env _ image (ocr_lang self)); reflexivity.
  - left. split; [reflexivity | discriminate].
Qed.

(** X9. A run of the OCR fallback raises exactly when the rasteriser
    raises or the recogniser raises on the first image; with no image it
    returns the empty text, and otherwise the stripped recogniser
    output. *)
Theorem ocr_page_outcome (index : Z) (tr : Trace Page Image) :
  let ev := ConvertFromPath (pdf_path self) (index + 1) (index + 1) 300 in
  let images :=
    convert_from_path env tr (pdf_path self) (index + 1) (index + 1) 300 in
  (fst (_ocr_page env self index tr) = Raise <->
   images = Raise
   \/ exists image rest,
        images = Ok (image :: rest)
        /\ image_to_string env (ev :: tr) image (ocr_lang self) = Raise)
  /\ (images = Ok [] -> fst (_ocr_page env self index tr) = Ok [])
  /\ (forall image rest t,
         images = Ok (image :: rest) ->
         image_to_string env (ev :: tr) image (ocr_lang self) = Ok t ->
         fst (_ocr_page env self index tr) = Ok (strip t)).
Proof.
  intros ev images. subst ev images. run.
  destruct (convert_from_path env tr (pdf_path self)
              (index + 1) (index + 1) 300) as [[|image rest]|] eqn:Ec.
  - split; [|split].
    + split; [discriminate|]. intros [H|(i & r & H & _)]; discriminate.
    + reflexivity.
    + intros i r t H. discriminate.
  - destruct (image_to_string env _ image (ocr_lang self)) as [t|] eqn:Ei;
      (split; [|split]).
    + split; [discriminate|].
      intros [H|(i & r & H & Hr)]; [discriminate|].
      inversion H. subst. rewrite Ei in Hr. discriminate Hr.
    + discriminate.
    + intros i r t' H Ht. inversion H. subst. rewrite Ei in Ht.
      inversion Ht. reflexivity.
    + split; [|reflexivity]. intros _. right. exists image, rest. auto.
    + discriminate.
    + intros i r t' H Ht. inversion H. subst. rewrite Ei in Ht.
      discriminate Ht.
  - split; [|split].
    + split; auto.
    + discriminate.
    + intros i r t H. discriminate.
Qed.

(** X10. A record is tagged [TEXT] only when direct extraction succeeded
    with at least 40 stripped characters; its text is then that stripped
    text, and neither the rasteriser nor the recogniser was called. *)
Theorem extract_text_TEXT_only_when_usable
        (index : Z) (tr tr' : Trace Page Image) (r : PageContent) :
  extract_text_from_page env self index tr = (Ok r, tr') ->
  source_type r = TEXT ->
  exists page t,
    pages_getitem env tr index = Ok page
    /\ page_extract_text env (PagesGetitem index :: tr) page = Ok t
    /\ text r = strip (or_empty t)
    /\ (40 <= length (text r))%nat
    /\ tr' = ExtractText page :: PagesGetitem index :: tr.
Proof.
  run. intros E Hs.
  destruct (pages_getitem env tr index) as [page|] eqn:Ep.
  - destruct (page_extract_text env (PagesGetitem index :: tr) page)
      as [t|] eqn:Et.
    + destruct (40 <=? length (strip (or_empty t)))%nat eqn:L.
      * inversion E. subst. exists page, t. simpl.
        apply Nat.leb_le in L. auto.
      * revert E. repeat branch; intros E; inversion E; subst;
          discriminate.
    + revert E. repeat branch; intros E; inversion E; subst; discriminate.
  - revert E. repeat branch; intros E; inversion E; subst; discriminate.
Qed.

(** X11. For one page the extractor indexes the PDF once and asks for the
    page text at most once, and it calls the rasteriser and the
    recogniser at most twice each. *)
Theorem extract_text_call_bounds (index : Z) (tr : Trace Page Image) :
  let tr' := snd (extract_text_from_page env self index tr) in
  let parser t := length (filter is_parser_call t) in
  (1 + parser tr <= parser tr' <= 2 + parser tr)%nat
  /\ (fallback_runs index tr' <= 2 + fallback_runs index tr)%nat
  /\ (recogniser_calls tr' <= 2 + recogniser_calls tr)%nat.
Proof.
  cbv zeta. run. unfold fallback_runs, recogniser_calls.
  repeat branch; cbn [snd filter is_parser_call is_rasterise is_recognise
                      length];
    rewrite ?Z.eqb_refl; cbn [length]; lia.
Qed.

End ExtractorExtras.

Section ExtractorExtrasWitnesses.
Import Fixtures.

Lemma extract_text_TEXT_only_when_usable_witness :
  let r := mkPageContent 1
             (lit "The quick brown fox jumps over the lazy dog, twice.")
             TEXT in
  let tr' := [ExtractText tt; PagesGetitem 0] in
  extract_text_from_page text_page chunker 0 [] = (Ok r, tr')
  /\ source_type r = TEXT
  /\ exists page t,
       pages_getitem text_page [] 0 = Ok page
       /\ page_extract_text text_page [PagesGetitem 0] page = Ok t
       /\ text r = strip (or_empty t)
       /\ (40 <= length (text r))%nat
       /\ tr' = [ExtractText page; PagesGetitem 0].
Proof.
  intros r tr'.
  assert (E : extract_text_from_page text_page chunker 0 [] = (Ok r, tr'))
    by (vm_compute; reflexivity).
  assert (Hs : source_type r = TEXT) by reflexivity.
  split; [exact E|]. split; [exact Hs|].
  exact (extract_text_TEXT_only_when_usable text_page chunker 0 [] tr' r
           E Hs).
Defined.

End ExtractorExtrasWitnesses.

(* ================================================================== *)
(** ** The orchestrator *)

Module OrchestratorFacts.
Import Writer OrchestratorSpec FormatSpec FormatFacts WriterFacts.

Lemma count_source_cons s r l :
  count_source s (r :: l)
  = (match source_type r, s with
     | TEXT, TEXT | OCR, OCR | ERROR, ERROR => 1
     | _, _ => 0
     end) + count_source s l.
Proof.
  unfold count_source. cbn [filter].
  destruct (source_type r), s; cbn [length]; lia.
Qed.

Lemma count_source_app s a b :
  count_source s (a ++ b) = count_source s a + count_source s b.
Proof.
  induction a as [|r a IH]; [reflexivity|].
  cbn [app]. rewrite !count_source_cons, IH. lia.
Qed.

Lemma count_source_total l :
  count_source TEXT l + count_source OCR l + count_source ERROR l
  = Z.of_nat (length l).
Proof.
  induction l as [|r l IH]; [reflexivity|].
  rewrite !count_source_cons. cbn [length].
  destruct (source_type r); lia.
Qed.

Lemma write_chunk_file_nonempty chunk_index first rest fs :
  write_chunk_file chunk_index (first :: rest) fs
  = if utf8_encodable (chunk_text chunk_index (first :: rest))
    then (Ok tt, write_file fs (chunk_path chunk_index (first :: rest))
                            (chunk_text chunk_index (first :: rest)))
    else (Raise, write_file fs (chunk_path chunk_index (first :: rest)) []).
Proof. reflexivity. Qed.

Lemma utf8_encodable_app a b :
  utf8_encodable (a ++ b) = utf8_encodable a && utf8_encodable b.
Proof. apply forallb_app. Qed.

Lemma numeric_encodable c : numeric_char c = true -> encodable_char c = true.
Proof.
  unfold numeric_char, digit_char, encodable_char. intros H.
  apply orb_true_iff. left. apply N.ltb_lt.
  apply orb_true_iff in H. destruct H as [H|H].
  - apply orb_true_iff in H. destruct H as [H|H]; apply N.eqb_eq in H; lia.
  - apply andb_prop in H. destruct H as [_ H]. apply N.leb_le in H. lia.
Qed.

Lemma format_d_encodable zero width z :
  utf8_encodable (format_d zero width z) = true.
Proof.
  apply forallb_forall. intros c Hin.
  pose proof (format_d_chars zero width z) as H.
  rewrite Forall_forall in H. apply numeric_encodable, H, Hin.
Qed.

Lemma str_of_int_encodable z : utf8_encodable (str_of_int z) = true.
Proof. apply (format_d_encodable false 0 z). Qed.

(** A page section can be encoded exactly when the page text can. *)
Lemma page_section_encodable p :
  utf8_encodable (page_section p) = utf8_encodable (text p).
Proof.
  unfold page_section.
  rewrite !utf8_encodable_app, str_of_int_encodable.
  change (utf8_encodable (lit "---- [Page ")) with true.
  change (utf8_encodable (lit "] ----")) with true.
  change (utf8_encodable nl) with true.
  cbn [andb]. apply andb_true_r.
Qed.

Lemma sections_encodable pages :
  utf8_encodable (join nl (List.map page_section pages))
  = texts_encodable pages.
Proof.
  induction pages as [|p pages IH]; [reflexivity|].
  destruct pages as [|q pages].
  - cbn [List.map join texts_encodable forallb].
    rewrite page_section_encodable, andb_true_r. reflexivity.
  - change (join nl (List.map page_section (p :: q :: pages)))
      with (page_section p ++ nl
              ++ join nl (List.map page_section (q :: pages))).
    rewrite !utf8_encodable_app, IH, page_section_encodable.
    reflexivity.
Qed.

(** The fixed parts of a chunk file are ASCII: the file can be encoded
    exactly when the page texts can. *)
Lemma chunk_content_encodable i s e combined :
  utf8_encodable (chunk_content i s e combined) = utf8_encodable combined.
Proof.
  unfold chunk_content, instructions. cbn [app join].
  rewrite !utf8_encodable_app, format_d_encodable, !str_of_int_encodable.
  reflexivity.
Qed.

Lemma chunk_text_encodable i first rest :
  utf8_encodable (chunk_text i (first :: rest))
  = texts_encodable (first :: rest).
Proof.
  unfold chunk_text. rewrite chunk_content_encodable.
  apply sections_encodable.
Qed.

Lemma texts_encodable_concat chunks :
  texts_encodable (concat chunks) = forallb texts_encodable chunks.
Proof.
  induction chunks as [|c chunks IH]; [reflexivity|].
  cbn [concat forallb]. rewrite <- IH. apply forallb_app.
Qed.

(** Chunks written under different indices go to different paths. *)
Lemma chunk_path_index i j c c' :
  c <> [] -> c' <> [] -> chunk_path i c = chunk_path j c' -> i = j.
Proof.
  destruct c as [|f r]; [contradiction|].
  destruct c' as [|f' r']; [contradiction|].
  intros _ _ E. unfold chunk_path, path_join in E.
  apply app_inv_head in E. apply app_inv_head in E.
  apply chunk_filename_inj in E. apply E.
Qed.

Lemma chunk_path_not_log i c : c <> [] -> chunk_path i c <> log_path.
Proof.
  destruct c as [|f r]; [contradiction|]. intros _ E.
  unfold chunk_path, log_path, path_join, chunks_dir, logs_dir in E.
  apply (f_equal (fun l => hd 0%N l)) in E. discriminate E.
Qed.

(** Writing a list of non-empty chunks with encodable texts from index
    [k] on succeeds, leaves each chunk's text in its own file and touches
    no other path. *)
Lemma write_chunks_files chunks : forall k fs,
  Forall (fun c => c <> []) chunks ->
  forallb texts_encodable chunks = true ->
  exists fs',
    write_chunks k chunks fs = (Ok tt, fs')
    /\ (forall i c, nth_error chunks i = Some c ->
                    fs' (chunk_path (k + Z.of_nat i) c)
                    = Some (chunk_text (k + Z.of_nat i) c))
    /\ (forall p,
           (forall i c, nth_error chunks i = Some c ->
                        p <> chunk_path (k + Z.of_nat i) c) ->
           fs' p = fs p).
Proof.
  induction chunks as [|c chunks IH]; intros k fs Hne Henc.
  - exists fs. split; [reflexivity|]. split; [|reflexivity].
    intros [|i] c H; discriminate.
  - inversion Hne as [|? ? Hc Hrest]. subst.
    cbn [forallb] in Henc. apply andb_prop in Henc.
    destruct Henc as [Henc Hencs].
    destruct c as [|first rest]; [contradiction|].
    cbn [write_chunks]. rewrite write_chunk_file_nonempty.
    rewrite chunk_text_encodable, Henc.
    set (fs1 := write_file fs (chunk_path k (first :: rest))
                           (chunk_text k (first :: rest))).
    destruct (IH (k + 1) fs1 Hrest Hencs) as (fs' & E & Hfiles & Hframe).
    exists fs'. split; [exact E|]. split.
    + intros [|i] c H.
      * inversion H. subst c. replace (k + Z.of_nat 0) with k by lia.
        rewrite Hframe.
        -- apply write_file_same.
        -- intros j c' Hj Heq.
           assert (Hc' : c' <> []).
           { rewrite Forall_forall in Hrest. apply Hrest.
             apply (nth_error_In _ _ Hj). }
           apply (chunk_path_index k (k + 1 + Z.of_nat j)
                    (first :: rest) c' Hc Hc') in Heq.
           lia.
      * replace (k + Z.of_nat (S i)) with (k + 1 + Z.of_nat i) by lia.
        apply Hfiles. exact H.
    + intros p Hp. rewrite Hframe.
      * apply write_file_other.
        replace k with (k + Z.of_nat 0) by lia.
        apply (Hp 0%nat). reflexivity.
      * intros i c H.
        replace (k + 1 + Z.of_nat i) with (k + Z.of_nat (S i)) by lia.
        apply (Hp (S i)). exact H.
Qed.

(** Writing stops with the exception of the first chunk whose text
    cannot be encoded. *)
Lemma write_chunks_raises chunks : forall k fs,
  Forall (fun c => c <> []) chunks ->
  forallb texts_encodable chunks = false ->
  fst (write_chunks k chunks fs) = Raise.
Proof.
  induction chunks as [|c chunks IH]; intros k fs Hne Henc;
    [discriminate|].
  inversion Hne as [|? ? Hc Hrest]. subst.
  destruct c as [|first rest]; [contradiction|].
  cbn [write_chunks]. rewrite write_chunk_file_nonempty.
  rewrite chunk_text_encodable.
  cbn [forallb] in Henc.
  destruct (texts_encodable (first :: rest)); [|reflexivity].
  apply IH; assumption.
Qed.


Section Loop.
Context {Page Image : Type}.
Variable env : Collaborators Page Image.
Variable self : PDFChunker.

(** The page loop returns the records it was given followed by one record
    per page, and counts the new [TEXT] and [OCR] records. *)
Lemma process_pages_records page_nums : forall acc stats tr,
  exists records stats' tr',
    process_pages env self page_nums acc stats tr
    = (Ok (acc ++ records, stats'), tr')
    /\ List.map page_num records = List.map (fun i => i + 1) page_nums
    /\ total_pages stats' = total_pages stats
    /\ text_pages stats' = text_pages stats + count_source TEXT records
    /\ ocr_pages stats' = ocr_pages stats + count_source OCR records
    /\ total_chunks stats' = total_chunks stats.
Proof.
  induction page_nums as [|n rest IH]; intros acc stats tr.
  - exists [], stats, tr. rewrite app_nil_r.
    repeat split; unfold count_source; simpl; lia.
  - destruct (extract_text_from_page_total env self n tr)
      as (r & tr1 & E & Hn).
    destruct (IH (acc ++ [r]) (count_page stats r) tr1)
      as (records & stats' & tr2 & Er & Hnum & Ht & Htx & Ho & Hc).
    exists (r :: records), stats', tr2.
    cbn [process_pages]. unfold bind at 1. rewrite E, Er.
    rewrite <- app_assoc. cbn [app List.map].
    rewrite !count_source_cons.
    split; [reflexivity|]. split; [rewrite Hn, Hnum; reflexivity|].
    unfold count_page in *.
    destruct (source_type r);
      cbn [total_pages text_pages ocr_pages total_chunks] in *;
      repeat split; lia.
Qed.

End Loop.

End OrchestratorFacts.

Section OrchestratorExtras.
Import Packer Writer OrchestratorSpec PackerFacts PackFacts WriterFacts.
Import OrchestratorFacts Fixtures.

Context {Page Image : Type}.
Variable env : Collaborators Page Image.
Variable self : PDFChunker.

(** What [process_pdf] returns once the document has opened. *)
Lemma process_pdf_opens (doc : Document) (stats : Stats)
      (tr : Trace Page Image) (n : nat) :
  process_open doc = Ok n ->
  exists records stats' tr',
    process_pdf env self doc stats tr = (Ok (records, stats'), tr')
    /\ List.map page_num records
       = List.map (fun i => Z.of_nat i + 1) (seq 0 n)
    /\ total_pages stats' = Z.of_nat n
    /\ text_pages stats' = text_pages stats + count_source TEXT records
    /\ ocr_pages stats' = ocr_pages stats + count_source OCR records
    /\ total_chunks stats' = total_chunks stats.
Proof.
  intros Hopen. unfold process_pdf. rewrite Hopen. cbv zeta.
  destruct (process_pages_records env self (List.map Z.of_nat (seq 0 n)) []
              (mkStats (Z.of_nat n) (text_pages stats) (ocr_pages stats)
                       (total_chunks stats)) tr)
    as (records & stats' & tr' & E & Hnum & Ht & Htx & Ho & Hc).
  cbn [app total_pages text_pages ocr_pages total_chunks] in *.
  exists records, stats', tr'. rewrite map_map in Hnum. auto 10.
Qed.

(** Records whose numbers are 1 to [n] are [n] records numbered from 1. *)
Lemma numbered_of_map (records : list PageContent) (n : nat) :
  List.map page_num records = List.map (fun i => Z.of_nat i + 1) (seq 0 n) ->
  length records = n /\ numbered_from 1 records.
Proof.
  intros Hnum.
  assert (Hlen : length records = n).
  { apply (f_equal (@length _)) in Hnum.
    rewrite !length_map, length_seq in Hnum. exact Hnum. }
  split; [exact Hlen|].
  unfold numbered_from. rewrite Hnum, Hlen.
  apply map_ext. intros i. lia.
Qed.

(** X12. Once the document opens with [n] pages, [process_pdf] returns
    exactly [n] records numbered 1 to [n] in order, whatever the
    collaborators do on each page; it sets the page total to [n], adds
    the number of [TEXT] records and of [OCR] records to their counters,
    and counts [ERROR] records in neither. *)
Theorem process_pdf_records (doc : Document) (stats : Stats)
        (tr : Trace Page Image) (n : nat) :
  process_open doc = Ok n ->
  exists records stats' tr',
    process_pdf env self doc stats tr = (Ok (records, stats'), tr')
    /\ length records = n
    /\ numbered_from 1 records
    /\ total_pages stats' = Z.of_nat n
    /\ text_pages stats' = text_pages stats + count_source TEXT records
    /\ ocr_pages stats' = ocr_pages stats + count_source OCR records
    /\ total_chunks stats' = total_chunks stats
    /\ count_source TEXT records + count_source OCR records
       + count_source ERROR records = Z.of_nat n.
Proof.
  intros Hopen.
  destruct (process_pdf_opens doc stats tr n Hopen)
    as (records & stats' & tr' & E & Hnum & Ht & Htx & Ho & Hc).
  destruct (numbered_of_map records n Hnum) as [Hlen Hfrom].
  exists records, stats', tr'.
  split; [exact E|]. split; [exact Hlen|]. split; [exact Hfrom|].
  split; [exact Ht|]. split; [exact Htx|]. split; [exact Ho|].
  split; [exact Hc|].
  rewrite count_source_total, Hlen. reflexivity.
Qed.

(** X13. Writing the chunks of the packer one after the other, as [run]
    does, fails only on encoding: it succeeds exactly when every page text
    can be encoded to UTF-8 (no chunk is empty, so indexing a chunk never
    raises).  When it succeeds, every chunk's text is in the file named
    after its index and page range, no chunk file having been overwritten
    by a later one, and every other path is as it was. *)
Theorem write_chunks_of_create_chunks (pages_content : list PageContent)
        (fs : FS) :
  let chunks := create_chunks self pages_content in
  let outcome := write_chunks 0 chunks fs in
  (fst outcome = Ok tt <-> texts_encodable pages_content = true)
  /\ (texts_encodable pages_content = true ->
      (forall i c, nth_error chunks i = Some c ->
                   snd outcome (chunk_path (Z.of_nat i) c)
                   = Some (chunk_text (Z.of_nat i) c))
      /\ (forall p,
             (forall i c, nth_error chunks i = Some c ->
                          p <> chunk_path (Z.of_nat i) c) ->
             snd outcome p = fs p)).
Proof.
  intros chunks outcome. subst outcome.
  pose proof (chunks_nonempty self pages_content) as Hne.
  assert (Hall : forallb texts_encodable chunks
                 = texts_encodable pages_content).
  { rewrite <- texts_encodable_concat. subst chunks.
    rewrite create_chunks_concat. reflexivity. }
  assert (Hok : texts_encodable pages_content = true ->
                exists fs',
                  write_chunks 0 chunks fs = (Ok tt, fs')
                  /\ (forall i c, nth_error chunks i = Some c ->
                                  fs' (chunk_path (Z.of_nat i) c)
                                  = Some (chunk_text (Z.of_nat i) c))
                  /\ (forall p,
                         (forall i c, nth_error chunks i = Some c ->
                                      p <> chunk_path (Z.of_nat i) c) ->
                         fs' p = fs p)).
  { intros Henc. rewrite <- Hall in Henc.
    destruct (write_chunks_files chunks 0 fs Hne Henc)
      as (fs' & E & Hfiles & Hframe).
    exists fs'. split; [exact E|]. split.
    - intros i c H. apply (Hfiles i c H).
    - intros p Hp. apply Hframe. intros i c H. apply (Hp i c H). }
  split; [split|].
  - intros Hfst.
    destruct (texts_encodable pages_content); [reflexivity|].
    rewrite (write_chunks_raises chunks 0 fs Hne Hall) in Hfst.
    discriminate Hfst.
  - intros Henc. destruct (Hok Henc) as (fs' & E & _). rewrite E.
    reflexivity.
  - intros Henc. destruct (Hok Henc) as (fs' & E & Hfiles & Hframe).
    rewrite E. cbn [snd]. split; assumption.
Qed.

(** X15. Writing the log replaces whatever log was there before, and
    touches no other path; in particular no chunk file. *)
Theorem write_log_overwrites (pages_content earlier : list PageContent)
        (fs : FS) :
  (forall p, write_log pages_content (write_log earlier fs) p
             = write_log pages_content fs p)
  /\ (forall p, p <> log_path -> write_log pages_content fs p = fs p)
  /\ (forall i c, c <> [] ->
                  write_log pages_content fs (chunk_path i c)
                  = fs (chunk_path i c)).
Proof.
  split; [|split].
  - intros p. unfold write_log, write_file.
    destruct (pystr_eqb p _); reflexivity.
  - intros p Hp. unfold write_log. apply write_file_other. exact Hp.
  - intros i c Hc. unfold write_log. apply write_file_other.
    apply (chunk_path_not_log i c Hc).
Qed.

(** X16. When the input path does not exist, is not a file, cannot be
    parsed at validation, or cannot be opened for processing, [run]
    reports failure without raising, calls no collaborator, and leaves
    the counters and every file as they were. *)
Theorem run_failure (doc : Document) (stats : Stats) (fs : FS)
        (tr : Trace Page Image) :
  path_exists doc = false \/ path_is_file doc = false
  \/ validate_open doc = Raise \/ process_open doc = Raise ->
  run env self doc stats fs tr = (Ok (false, stats, fs), tr).
Proof.
  intros H. unfold run, validate_pdf, process_pdf, try_except, bind, ret,
    raise.
  destruct (path_exists doc); [|reflexivity].
  destruct (path_is_file doc); [|reflexivity].
  destruct (validate_open doc); [|reflexivity].
  destruct (process_open doc); [|reflexivity].
  destruct H as [H|[H|[H|H]]]; discriminate H.
Qed.

(** X17. When the input validates and opens with [n] pages, and the
    texts of the records [process_pdf] returns can all be encoded to
    UTF-8, [run] reports success: those records are [n] records numbered
    1 to [n]; [run] has recorded the page and chunk totals, written every
    chunk of the packer to its own file and the log of all records to the
    log file, and left every other path as it was. *)
Theorem run_success (doc : Document) (stats stats1 : Stats) (fs : FS)
        (tr tr' : Trace Page Image) (n : nat) (u : unit)
        (records : list PageContent) :
  path_exists doc = true -> path_is_file doc = true ->
  validate_open doc = Ok u -> process_open doc = Ok n ->
  process_pdf env self doc stats tr = (Ok (records, stats1), tr') ->
  texts_encodable records = true ->
  exists stats' fs',
    run env self doc stats fs tr = (Ok (true, stats', fs'), tr')
    /\ length records = n
    /\ numbered_from 1 records
    /\ total_pages stats' = Z.of_nat n
    /\ text_pages stats' = text_pages stats1
    /\ ocr_pages stats' = ocr_pages stats1
    /\ total_chunks stats'
       = Z.of_nat (length (create_chunks self records))
    /\ fs' log_path = Some (log_text records)
    /\ (forall i c,
           nth_error (create_chunks self records) i = Some c ->
           fs' (chunk_path (Z.of_nat i) c)
           = Some (chunk_text (Z.of_nat i) c))
    /\ (forall p,
           p <> log_path ->
           (forall i c,
               nth_error (create_chunks self records) i = Some c ->
               p <> chunk_path (Z.of_nat i) c) ->
           fs' p = fs p).
Proof.
  intros Hex Hfile Hval Hopen E Henc.
  destruct (process_pdf_opens doc stats tr n Hopen)
    as (records0 & stats0 & tr0 & E0 & Hmap & Ht & _).
  rewrite E in E0. inversion E0. subst records0 stats0 tr0.
  destruct (numbered_of_map records n Hmap) as [Hlen Hnum].
  pose proof (chunks_nonempty self records) as Hne.
  assert (Hall : forallb texts_encodable (create_chunks self records)
                 = true).
  { rewrite <- texts_encodable_concat, create_chunks_concat. exact Henc. }
  destruct (write_chunks_files (create_chunks self records) 0 fs Hne Hall)
    as (fs1 & Ew & Hfiles & Hframe).
  exists (mkStats (total_pages stats1) (text_pages stats1)
                  (ocr_pages stats1)
                  (Z.of_nat (length (create_chunks self records)))),
    (write_log records fs1).
  split.
  - unfold run, validate_pdf. rewrite Hex, Hfile, Hval. cbn [negb].
    unfold try_except, bind at 1. unfold bind at 1. rewrite E.
    unfold ret at 1. cbv zeta. rewrite Ew. reflexivity.
  - split; [exact Hlen|]. split; [exact Hnum|].
    split; [exact Ht|]. split; [reflexivity|]. split; [reflexivity|].
    split; [reflexivity|]. split.
    + unfold write_log. apply write_file_same.
    + split.
      * intros i c H. unfold write_log. rewrite write_file_other.
        -- apply (Hfiles i c H).
        -- apply chunk_path_not_log.
           rewrite Forall_forall in Hne. apply Hne.
           apply (nth_error_In _ _ H).
      * intros p Hp Hc. unfold write_log.
        rewrite write_file_other by exact Hp.
        apply Hframe. intros i c H. apply (Hc i c H).
Qed.


End OrchestratorExtras.

Section OrchestratorWitnesses.
Import Packer Writer OrchestratorSpec Fixtures OrchestratorFixtures.

Lemma process_pdf_records_witness :
  process_open good_document = Ok 2%nat
  /\ exists records stats' tr',
       process_pdf scanned_page chunker good_document initial_stats []
       = (Ok (records, stats'), tr')
       /\ length records = 2%nat
       /\ numbered_from 1 records.
Proof.
  assert (H : process_open good_document = Ok 2%nat) by reflexivity.
  split; [exact H|].
  destruct (process_pdf_records scanned_page chunker good_document
              initial_stats [] 2 H)
    as (records & stats' & tr' & E & Hlen & Hnum & _).
  exists records, stats', tr'. split; [exact E|]. split; assumption.
Defined.

Lemma run_failure_witness :
  (path_exists missing_document = false
   \/ path_is_file missing_document = false
   \/ validate_open missing_document = Raise
   \/ process_open missing_document = Raise)
  /\ run scanned_page chunker missing_document initial_stats empty_fs []
     = (Ok (false, initial_stats, empty_fs), []).
Proof.
  assert (H : path_exists missing_document = false
              \/ path_is_file missing_document = false
              \/ validate_open missing_document = Raise
              \/ process_open missing_document = Raise)
    by (left; reflexivity).
  split; [exact H|].
  exact (run_failure scanned_page chunker missing_document initial_stats
           empty_fs [] H).
Defined.

Lemma run_success_witness :
  let records := [mkPageContent 1 (lit "scanned") OCR;
                  mkPageContent 2 (lit "scanned") OCR] in
  let stats1 := mkStats 2 0 2 0 in
  let tr' :=
    snd (process_pdf scanned_page chunker good_document initial_stats []) in
  path_exists good_document = true
  /\ path_is_file good_document = true
  /\ validate_open good_document = Ok tt
  /\ process_open good_document = Ok 2%nat
  /\ process_pdf scanned_page chunker good_document initial_stats []
     = (Ok (records, stats1), tr')
  /\ texts_encodable records = true
  /\ exists stats' fs',
       run scanned_page chunker good_document initial_stats empty_fs []
       = (Ok (true, stats', fs'), tr')
       /\ length records = 2%nat
       /\ fs' log_path = Some (log_text records).
Proof.
  intros records stats1 tr'.
  assert (H1 : path_exists good_document = true) by reflexivity.
  assert (H2 : path_is_file good_document = true) by reflexivity.
  assert (H3 : validate_open good_document = Ok tt) by reflexivity.
  assert (H4 : process_open good_document = Ok 2%nat) by reflexivity.
  assert (H5 : process_pdf scanned_page chunker good_document
                 initial_stats [] = (Ok (records, stats1), tr'))
    by (vm_compute; reflexivity).
  assert (H6 : texts_encodable records = true) by (vm_compute; reflexivity).
  split; [exact H1|]. split; [exact H2|]. split; [exact H3|].
  split; [exact H4|]. split; [exact H5|]. split; [exact H6|].
  destruct (run_success scanned_page chunker good_document initial_stats
              stats1 empty_fs [] tr' 2 tt records H1 H2 H3 H4 H5 H6)
    as (stats' & fs' & E & Hlen & _ & _ & _ & _ & _ & Hlog & _).
  exists stats', fs'.
  split; [exact E|]. split; assumption.
Defined.


(** Writing a chunk whose text holds a lone surrogate raises and leaves
    the chunk file empty. *)
Example write_chunk_file_surrogate :
  write_chunk_file 0 [mkPageContent 1 [97%N; 55296%N] TEXT] empty_fs
  = (Raise,
     write_file empty_fs (lit "output/chunks/chunk_001_p001-p001.md") []).
Proof. vm_compute. reflexivity. Qed.

(** A whole run on a two-page scanned document. *)
Example run_scanned_document :
  let '(outcome, tr) :=
    run scanned_page chunker good_document initial_stats empty_fs [] in
  match outcome with
  | Ok (success, stats, fs) =>
      success = true
      /\ stats = mkStats 2 0 2 1
      /\ fs (lit "output/chunks/chunk_001_p001-p002.md") <> None
      /\ fs (lit "logs/page_sources.txt")
         = Some (lit "Page Number | Source Type" ++ nl
                 ++ lit "------------------------------" ++ nl
                 ++ lit "     1      | OCR" ++ nl
                 ++ lit "     2      | OCR" ++ nl)
      /\ length tr = 8%nat
  | Raise => False
  end.
Proof. vm_compute. repeat split. discriminate. Qed.

End OrchestratorWitnesses.

(* ================================================================== *)
(** ** Chunk files list in chunk order *)

Module NameOrderFacts.
Import Writer OrchestratorSpec OrchestratorFixtures.

Lemma lex_ltb_prefix pre a b : lex_ltb (pre ++ a) (pre ++ b) = lex_ltb a b.
Proof.
  induction pre as [|x pre IH]; [reflexivity|].
  cbn [app lex_ltb]. rewrite N.ltb_irrefl, N.eqb_refl. exact IH.
Qed.

Lemma lex_ltb_head a : forall b x y,
  length a = length b ->
  lex_ltb a b = true -> lex_ltb (a ++ x) (b ++ y) = true.
Proof.
  induction a as [|c a IH]; intros [|d b] x y Hlen H;
    try discriminate.
  cbn [app lex_ltb] in *.
  destruct (c <? d)%N; [reflexivity|].
  destruct (c =? d)%N; [|discriminate].
  apply IH; [simpl in Hlen; lia | exact H].
Qed.

Lemma lex_ltb_trans a : forall b c,
  lex_ltb a b = true -> lex_ltb b c = true -> lex_ltb a c = true.
Proof.
  induction a as [|x a IH]; intros [|y b] [|z c] Hab Hbc;
    try discriminate; try reflexivity.
  cbn [lex_ltb] in *.
  destruct (x <? y)%N eqn:Hxy.
  - apply N.ltb_lt in Hxy.
    destruct (y <? z)%N eqn:Hyz.
    + apply N.ltb_lt in Hyz.
      replace (x <? z)%N with true by (symmetry; apply N.ltb_lt; lia).
      reflexivity.
    + destruct (y =? z)%N eqn:Eyz; [|discriminate].
      apply N.eqb_eq in Eyz. subst z.
      replace (x <? y)%N with true by (symmetry; apply N.ltb_lt; lia).
      reflexivity.
  - destruct (x =? y)%N eqn:Exy; [|discriminate].
    apply N.eqb_eq in Exy. subst y.
    destruct (x <? z)%N; [reflexivity|].
    destruct (x =? z)%N; [|discriminate].
    apply (IH b c Hab Hbc).
Qed.

(** Each padded ordinal below 999 has three characters and is smaller,
    as a text, than the next one. *)
Lemma ordinals_sorted :
  forallb (fun m => ordered_pair m (m + 1)) ordinals = true.
Proof. vm_compute. reflexivity. Qed.

Lemma next_ordinal m :
  1 <= m -> m <= 998 ->
  length (format_d true 3 m) = 3%nat
  /\ length (format_d true 3 (m + 1)) = 3%nat
  /\ lex_ltb (format_d true 3 m) (format_d true 3 (m + 1)) = true.
Proof.
  intros H1 H2.
  assert (Hm : In m ordinals).
  { unfold ordinals. apply in_map_iff.
    exists (Z.to_nat m). split; [lia|]. apply in_seq. lia. }
  pose proof (proj1 (forallb_forall _ _) ordinals_sorted m Hm) as H.
  unfold ordered_pair in H.
  replace (m <? m + 1) with true in H by (symmetry; apply Z.ltb_lt; lia).
  apply andb_prop in H. destruct H as [H Hlt].
  apply andb_prop in H. destruct H as [Ha Hb].
  apply Nat.eqb_eq in Ha, Hb. auto.
Qed.

Lemma later_ordinal (k : nat) : forall m,
  1 <= m -> m + Z.of_nat k + 1 <= 999 ->
  lex_ltb (format_d true 3 m) (format_d true 3 (m + Z.of_nat k + 1)) = true.
Proof.
  induction k as [|k IH]; intros m H1 H2.
  - replace (m + Z.of_nat 0 + 1) with (m + 1) by lia.
    apply next_ordinal; lia.
  - apply (lex_ltb_trans _ (format_d true 3 (m + Z.of_nat k + 1))).
    + apply IH; lia.
    + replace (m + Z.of_nat (S k) + 1) with (m + Z.of_nat k + 1 + 1) by lia.
      apply next_ordinal; lia.
Qed.

Lemma padded_ordinals_ordered m n :
  1 <= m -> m < n -> n <= 999 ->
  length (format_d true 3 m) = length (format_d true 3 n)
  /\ lex_ltb (format_d true 3 m) (format_d true 3 n) = true.
Proof.
  intros H1 H2 H3. split.
  - destruct (next_ordinal m) as (Hm & _); try lia.
    destruct (next_ordinal (n - 1)) as (_ & Hn & _); try lia.
    replace (n - 1 + 1) with n in Hn by lia. congruence.
  - replace n with (m + Z.of_nat (Z.to_nat (n - m - 1)) + 1) by lia.
    apply later_ordinal; lia.
Qed.

End NameOrderFacts.

Section NameOrderExtras.
Import Writer OrchestratorSpec NameOrderFacts.

(** Past ordinal 999 the padding no longer aligns the names: chunk 1000
    lists before chunk 999. *)
Example chunk_filename_order_breaks :
  lex_ltb (chunk_filename 999 5000 5004) (chunk_filename 998 4995 4999)
  = true.
Proof. vm_compute. reflexivity. Qed.

(** X14. For up to 999 chunks, the chunk file names sort as texts in
    chunk order, whatever the page numbers: an earlier chunk's name is
    strictly smaller than a later chunk's name. *)
Theorem chunk_filename_sorted (i j s e s' e' : Z) :
  0 <= i -> i < j -> j <= 998 ->
  lex_ltb (chunk_filename i s e) (chunk_filename j s' e') = true.
Proof.
  intros Hi Hij Hj. unfold chunk_filename.
  rewrite lex_ltb_prefix.
  destruct (padded_ordinals_ordered (i + 1) (j + 1)) as [Hlen Hlt];
    try lia.
  apply lex_ltb_head; assumption.
Qed.

Lemma chunk_filename_sorted_witness :
  0 <= 8 /\ 8 < 9 /\ 9 <= 998
  /\ lex_ltb (chunk_filename 8 80 89) (chunk_filename 9 90 99) = true.
Proof.
  assert (H1 : 0 <= 8) by lia.
  assert (H2 : 8 < 9) by lia.
  assert (H3 : 9 <= 998) by lia.
  split; [exact H1|]. split; [exact H2|]. split; [exact H3|].
  exact (chunk_filename_sorted 8 9 80 89 90 99 H1 H2 H3).
Defined.

End NameOrderExtras.
